(** * git-semver: the version model and its formatter

    A shallow embedding of package [version] (NewFromHead, Version.Format,
    Version.PreRelease, Version.ReleaseCandidate) together with the parts of
    Go's [strings], [strconv] and [regexp] packages the code calls.

    Conventions
    - a Go [string] is a sequence of bytes: Rocq's [string] (8-bit [ascii]);
    - Go's [int] and [int64] are 64-bit two's complement: [Z] with the
      wrap-around of [++] written out ([wrap64]);
    - a Go function returning [(T, error)] returns a [res T];
    - a run-time panic (slice out of range) is the outcome [Panic]. *)

From Stdlib Require Import ZArith Lia List Bool Ascii String.
From Stdlib Require Import DecimalPos DecimalString.
Import ListNotations.

Local Open Scope string_scope.
Local Open Scope Z_scope.

(** ** Byte strings *)

Module Strings.

(** [len(s)] *)
Definition len (s : string) : Z := Z.of_nat (String.length s).

(** [strings.HasPrefix(s, prefix)] *)
Definition HasPrefix (s pre : string) : bool := String.prefix pre s.

(** [s[n:]] for [n <= len(s)] *)
Fixpoint drop (n : nat) (s : string) : string :=
  match n, s with
  | O, _ => s
  | S n', String _ s' => drop n' s'
  | S _, EmptyString => EmptyString
  end.

(** [s[:n]] for [n <= len(s)] *)
Fixpoint take (n : nat) (s : string) : string :=
  match n, s with
  | O, _ => EmptyString
  | S n', String c s' => String c (take n' s')
  | S _, EmptyString => EmptyString
  end.

(** [strings.TrimPrefix(s, prefix)]: [s] without the leading [prefix], or
    [s] itself when it does not start with [prefix]. *)
Definition TrimPrefix (s pre : string) : string :=
  if HasPrefix s pre then drop (String.length pre) s else s.

(** [strings.Contains(s, sep)] for a one-byte [sep]; the code only calls it
    with ["+"] and ["-"]. *)
Fixpoint Contains (s : string) (sep : ascii) : bool :=
  match s with
  | EmptyString => false
  | String c s' => if Ascii.eqb c sep then true else Contains s' sep
  end.

(** [strings.Split(s, sep)] for a one-byte [sep]: [s] is cut at EVERY
    occurrence of [sep]; [n] occurrences give [n + 1] pieces. *)
Fixpoint Split (s : string) (sep : ascii) : list string :=
  match s with
  | EmptyString => [EmptyString]
  | String c s' =>
      if Ascii.eqb c sep then EmptyString :: Split s' sep
      else match Split s' sep with
           | p :: ps => String c p :: ps
           | [] => [String c EmptyString]
           end
  end.

(** The part of [s] left of the first [sep] (all of [s] when there is none)
    and the part right of it. *)
Fixpoint before (sep : ascii) (s : string) : string :=
  match s with
  | EmptyString => EmptyString
  | String c s' => if Ascii.eqb c sep then EmptyString else String c (before sep s')
  end.

Fixpoint after (sep : ascii) (s : string) : string :=
  match s with
  | EmptyString => EmptyString
  | String c s' => if Ascii.eqb c sep then s' else after sep s'
  end.

(** [s[:n]] with Go's bounds check: [None] stands for the run-time panic
    "slice bounds out of range". *)
Definition slice_to (s : string) (n : nat) : option string :=
  if (n <=? String.length s)%nat then Some (take n s) else None.

End Strings.

(** ** Machine integers and [strconv] *)

Module Strconv.

Definition MaxInt64 : Z := 2 ^ 63 - 1.
Definition MinInt64 : Z := - 2 ^ 63.
Definition MaxUint64 : Z := 2 ^ 64 - 1.

(** The value a 64-bit signed variable holds after an arithmetic result [z]. *)
Definition wrap64 (z : Z) : Z := (z + 2 ^ 63) mod 2 ^ 64 - 2 ^ 63.

(** [i++] on an [int] or an [int64] *)
Definition incr (i : Z) : Z := wrap64 (i + 1).

(** [strconv.FormatInt(i, 10)], which is also what the verb [%d] prints. *)
Definition FormatInt (i : Z) : string := NilEmpty.string_of_int (Z.to_int i).

Inductive NumErrKind := ErrSyntax | ErrRange.

(** [*strconv.NumError]: the failing input and the kind of failure. *)
Record NumError := { Num : string; Kind : NumErrKind }.

Definition is_digit (c : ascii) : bool :=
  (("0" <=? c)%char && (c <=? "9")%char)%bool.

(** [c - '0'] *)
Definition digit_val (c : ascii) : Z := Z.of_N (N_of_ascii c) - 48.

(** The loop of [ParseUint(s, 10, 64)]: [n] is the value read so far. A byte
    that is not a digit is a syntax error; the range error is raised as soon
    as the value leaves 64 bits, before the rest of the input is looked at. *)
Fixpoint parse_uint_loop (n : Z) (s : string) : NumErrKind + Z :=
  match s with
  | EmptyString => inr n
  | String c s' =>
      if is_digit c then
        if MaxUint64 / 10 + 1 <=? n then inl ErrRange
        else
          let n1 := n * 10 + digit_val c in
          if MaxUint64 <? n1 then inl ErrRange
          else parse_uint_loop n1 s'
      else inl ErrSyntax
  end.

Definition ParseUint (s : string) : NumErrKind + Z :=
  match s with
  | EmptyString => inl ErrSyntax
  | _ => parse_uint_loop 0 s
  end.

(** [strconv.ParseInt(s, 10, 64)] *)
Definition ParseInt (s : string) : NumError + Z :=
  let fail k := inl {| Num := s; Kind := k |} in
  match s with
  | EmptyString => fail ErrSyntax
  | String c s' =>
      let neg := Ascii.eqb c "-" in
      let body := if (Ascii.eqb c "+" || neg)%bool then s' else s in
      match ParseUint body with
      | inl k => fail k
      | inr un =>
          let cutoff := 2 ^ 63 in
          if (negb neg && (cutoff <=? un))%bool then fail ErrRange
          else if (neg && (cutoff <? un))%bool then fail ErrRange
          else inr (if neg then - un else un)
      end
  end.

(** The fast path of [Atoi]: no overflow check, the input is short. *)
Fixpoint atoi_fast_loop (n : Z) (s : string) : option Z :=
  match s with
  | EmptyString => Some n
  | String c s' =>
      if is_digit c then atoi_fast_loop (n * 10 + digit_val c) s' else None
  end.

(** [strconv.Atoi(s)] with a 64-bit [int]. *)
Definition Atoi (s : string) : NumError + Z :=
  let sLen := String.length s in
  if ((0 <? sLen)%nat && (sLen <? 19)%nat)%bool then
    match s with
    | EmptyString => inl {| Num := s; Kind := ErrSyntax |}
    | String c s' =>
        let signed := (Ascii.eqb c "-" || Ascii.eqb c "+")%bool in
        let body := if signed then s' else s in
        if (signed && (String.length body <? 1)%nat)%bool
        then inl {| Num := s; Kind := ErrSyntax |}
        else match atoi_fast_loop 0 body with
             | None => inl {| Num := s; Kind := ErrSyntax |}
             | Some n => inr (if Ascii.eqb c "-" then - n else n)
             end
    end
  else ParseInt s.

End Strconv.

(** ** Regular expressions

    The fragment of Go's [regexp] syntax the two patterns of the package
    use, with the leftmost-first (backtracking order) meaning Go gives it:
    the match starts at the leftmost position where one exists, [r?] and
    [c+] are greedy and give back only when the rest of the pattern cannot
    match. Go matches runes of UTF-8 text; both patterns hold ASCII bytes
    only, which begin a rune wherever they stand, so that matching byte by
    byte finds the same matches. *)

Module Regexp.

Inductive regex :=
| Lit (c : ascii)                        (* a literal byte *)
| Cat (r1 r2 : regex)                    (* r1 r2 *)
| Opt (r : regex)                        (* r? *)
| PlusClass (lo hi : ascii)              (* [lo-hi]+ *)
| Group (i : nat) (name : string) (r : regex)  (* the i-th (...) or (?P<name>...) *)
| Bol                                    (* ^ *)
| Eol.                                   (* $ *)

Definition in_class (lo hi c : ascii) : bool :=
  ((lo <=? c)%char && (c <=? hi)%char)%bool.

(** Submatches, by group number; a group that did not take part is [""] as
    in the slice [FindStringSubmatch] returns. *)
Definition caps := list string.

Fixpoint set_cap (i : nat) (x : string) (c : caps) : caps :=
  match i, c with
  | O, _ :: c' => x :: c'
  | S i', y :: c' => y :: set_cap i' x c'
  | _, [] => []
  end.

Section Matcher.
Variable A : Type.

(** A continuation receives the position reached, the input left and the
    submatches so far. *)
Definition cont := nat -> string -> caps -> option A.

(** [c*] for a byte class, longest first. *)
Fixpoint star_class (lo hi : ascii) (pos : nat) (s : string) (c : caps)
         (k : cont) : option A :=
  match s with
  | String a s' =>
      if in_class lo hi a then
        match star_class lo hi (S pos) s' c k with
        | Some r => Some r
        | None => k pos s c
        end
      else k pos s c
  | EmptyString => k pos s c
  end.

Fixpoint run (r : regex) (pos : nat) (s : string) (c : caps) (k : cont)
  : option A :=
  match r with
  | Lit a =>
      match s with
      | String b s' => if Ascii.eqb a b then k (S pos) s' c else None
      | EmptyString => None
      end
  | Cat r1 r2 => run r1 pos s c (fun pos' s' c' => run r2 pos' s' c' k)
  | Opt r1 =>
      match run r1 pos s c k with
      | Some res => Some res
      | None => k pos s c
      end
  | PlusClass lo hi =>
      match s with
      | String a s' =>
          if in_class lo hi a then star_class lo hi (S pos) s' c k else None
      | EmptyString => None
      end
  | Group i _ r1 =>
      run r1 pos s c
          (fun pos' s' c' => k pos' s' (set_cap i (Strings.take (pos' - pos) s) c'))
  | Bol => if Nat.eqb pos 0 then k pos s c else None
  | Eol => match s with EmptyString => k pos s c | _ => None end
  end.
End Matcher.

Arguments star_class {A}.
Arguments run {A}.

(** The names of the groups, by number *)
Fixpoint groups (r : regex) : list (nat * string) :=
  match r with
  | Cat r1 r2 => groups r1 ++ groups r2
  | Opt r1 => groups r1
  | Group i n r1 => (i, n) :: groups r1
  | _ => []
  end.

(** [re.SubexpNames()]: entry 0 is the whole match and has the empty name. *)
Definition SubexpNames (r : regex) : list string :=
  EmptyString :: map snd (groups r).

Definition NumSubexp (r : regex) : nat := List.length (groups r).

(** An attempt at one start position: entry 0 receives the whole match. *)
Definition match_here (r : regex) (pos : nat) (s : string) : option caps :=
  run r pos s (repeat EmptyString (S (NumSubexp r)))
      (fun pos' _ c => Some (set_cap 0 (Strings.take (pos' - pos) s) c)).

(** Start positions from left to right, the end of the input included. *)
Fixpoint search (r : regex) (pos : nat) (s : string) : option caps :=
  match match_here r pos s with
  | Some c => Some c
  | None =>
      match s with
      | String _ s' => search r (S pos) s'
      | EmptyString => None
      end
  end.

(** [re.FindStringSubmatch(s)]; [None] is the nil slice. *)
Definition FindStringSubmatch (r : regex) (s : string) : option caps :=
  search r 0 s.

(** [re.MatchString(s)] *)
Definition MatchString (r : regex) (s : string) : bool :=
  match FindStringSubmatch r s with Some _ => true | None => false end.

End Regexp.

(** ** Package [version] *)

Import Strings Strconv Regexp.

(** The errors the package returns, by the message that builds them. *)
Inductive error :=
| InvalidFormat (format : string)     (* "invalid format: %s" *)
| BadReleaseCandidate                 (* "pre-release does not match the release-candidate format (rc.1, other.1)" *)
| NumErr (e : NumError)               (* the error of strconv.ParseInt, returned as it is *)
| TagComponents (version : string)    (* "git version tag must contain 3 components: X.Y.Z: Got %s" *)
| TagMajor (e : NumError)             (* "failed to parse major version: %v" *)
| TagMinor (e : NumError)             (* "failed to parse minor version: %v" *)
| TagPatch (e : NumError).            (* "failed to parse patch version: %v" *)

(** A Go result [(T, error)]: the value when the error is nil, or the error. *)
Inductive res (T : Type) :=
| Ok (x : T)
| Err (e : error).
Arguments Ok {T}.
Arguments Err {T}.

Definition DefaultPrefix : string := "v".

Definition FullFormat : string := "x.y.z-p+m".
Definition NoMetaFormat : string := "x.y.z-p".
Definition NoPreFormat : string := "x.y.z".
Definition NoPatchFormat : string := "x.y".
Definition NoMinorFormat : string := "x".
Definition ReleaseCandidateFormat : string := "x.y.z-r".

(** [type buffer []byte] *)
Definition buffer := string.

Definition AppendString (b : buffer) (s : string) (sep : ascii) : buffer :=
  let b := if ((0 <? len s) && (0 <? len b))%bool
           then b ++ String sep EmptyString else b in
  (b ++ s)%string.

Definition AppendInt (b : buffer) (i : Z) (sep : ascii) : buffer :=
  AppendString b (FormatInt i) sep.

Record Version := {
  Prefix : string;
  Major : Z;
  Minor : Z;
  Patch : Z;
  preRelease : string;
  Commits : Z;
  Meta : string;
  releaseCandidate : Z
}.

(** [Version{Commits: n}]: every other field has its zero value. *)
Definition zero_version (n : Z) : Version :=
  {| Prefix := ""; Major := 0; Minor := 0; Patch := 0; preRelease := "";
     Commits := n; Meta := ""; releaseCandidate := 0 |}.

Definition set_Prefix (x : string) (v : Version) : Version :=
  {| Prefix := x; Major := Major v; Minor := Minor v; Patch := Patch v;
     preRelease := preRelease v; Commits := Commits v; Meta := Meta v;
     releaseCandidate := releaseCandidate v |}.
Definition set_Major (x : Z) (v : Version) : Version :=
  {| Prefix := Prefix v; Major := x; Minor := Minor v; Patch := Patch v;
     preRelease := preRelease v; Commits := Commits v; Meta := Meta v;
     releaseCandidate := releaseCandidate v |}.
Definition set_Minor (x : Z) (v : Version) : Version :=
  {| Prefix := Prefix v; Major := Major v; Minor := x; Patch := Patch v;
     preRelease := preRelease v; Commits := Commits v; Meta := Meta v;
     releaseCandidate := releaseCandidate v |}.
Definition set_Patch (x : Z) (v : Version) : Version :=
  {| Prefix := Prefix v; Major := Major v; Minor := Minor v; Patch := x;
     preRelease := preRelease v; Commits := Commits v; Meta := Meta v;
     releaseCandidate := releaseCandidate v |}.
Definition set_preRelease (x : string) (v : Version) : Version :=
  {| Prefix := Prefix v; Major := Major v; Minor := Minor v; Patch := Patch v;
     preRelease := x; Commits := Commits v; Meta := Meta v;
     releaseCandidate := releaseCandidate v |}.
Definition set_Meta (x : string) (v : Version) : Version :=
  {| Prefix := Prefix v; Major := Major v; Minor := Minor v; Patch := Patch v;
     preRelease := preRelease v; Commits := Commits v; Meta := x;
     releaseCandidate := releaseCandidate v |}.

(** [PreRelease]: the pre-release of the tag, with ["dev.<n>"] appended when
    there are commits since the tag. *)
Definition PreRelease (v : Version) : string :=
  if Commits v =? 0 then preRelease v
  else if (preRelease v =? "")%string then "dev." ++ FormatInt (Commits v)
  else preRelease v ++ ".dev." ++ FormatInt (Commits v).

(** [^([a-z]+)\.([0-9]+)$] *)
Definition re_release_candidate : regex :=
  Cat Bol
 (Cat (Group 1 "" (PlusClass "a" "z"))
 (Cat (Lit ".")
 (Cat (Group 2 "" (PlusClass "0" "9"))
      Eol))).

Definition ReleaseCandidate (v : Version) : res string :=
  if (preRelease v =? "")%string then Ok "rc.1"
  else if negb (MatchString re_release_candidate (preRelease v))
  then Err BadReleaseCandidate
  else
    match FindStringSubmatch re_release_candidate (preRelease v) with
    | None => Err BadReleaseCandidate
    | Some st =>
        if negb (Nat.eqb (List.length st) 3) then Err BadReleaseCandidate
        else
          match ParseInt (nth 2 st "") with
          | inl e => Err (NumErr e)
          | inr i =>
              let i := if 0 <? Commits v then incr i else i in
              Ok (nth 1 st "" ++ "." ++ FormatInt i)
          end
    end.

(** [(?P<major>x)(?P<minor>\.y)?(?P<patch>\.z)?(?P<pre>-p)?(?P<release_candidate>-r)?(?P<meta>\+m)?] *)
Definition re_format : regex :=
  Cat (Group 1 "major" (Lit "x"))
 (Cat (Opt (Group 2 "minor" (Cat (Lit ".") (Lit "y"))))
 (Cat (Opt (Group 3 "patch" (Cat (Lit ".") (Lit "z"))))
 (Cat (Opt (Group 4 "pre" (Cat (Lit "-") (Lit "p"))))
 (Cat (Opt (Group 5 "release_candidate" (Cat (Lit "-") (Lit "r"))))
      (Opt (Group 6 "meta" (Cat (Lit "+") (Lit "m")))))))).

(** The loop of [Format]: [rest] holds [matches[i:]]; the result of the
    function is built when the loop ends. *)
Fixpoint format_loop (v : Version) (names : list string) (i : nat)
         (rest : list string) (buf : buffer) : res string :=
  match rest with
  | [] => Ok (Prefix v ++ buf)
  | m :: rest' =>
      if Nat.eqb (String.length m) 0 then format_loop v names (S i) rest' buf
      else
        let name := nth i names "" in
        if (name =? "major")%string then
          format_loop v names (S i) rest' (AppendInt buf (Major v) ".")
        else if (name =? "minor")%string then
          format_loop v names (S i) rest' (AppendInt buf (Minor v) ".")
        else if (name =? "patch")%string then
          let patch := Patch v in
          let patch := if ((0 <? Commits v) && (preRelease v =? "")%string)%bool
                       then incr patch else patch in
          format_loop v names (S i) rest' (AppendInt buf patch ".")
        else if (name =? "pre")%string then
          format_loop v names (S i) rest' (AppendString buf (PreRelease v) "-")
        else if (name =? "release_candidate")%string then
          match ReleaseCandidate v with
          | Err e => Err e
          | Ok rc => format_loop v names (S i) rest' (AppendString buf rc "-")
          end
        else if (name =? "meta")%string then
          format_loop v names (S i) rest' (AppendString buf (Meta v) "+")
        else format_loop v names (S i) rest' buf
  end.

Definition Format (v : Version) (format : string) : res string :=
  match FindStringSubmatch re_format format with
  | None => Err (InvalidFormat format)
  | Some matches => format_loop v (SubexpNames re_format) 0 matches ""
  end.

(** Modelled from the spec: the struct [RepoHead], whose declaration is not
    among the sources; its three fields are the ones [NewFromHead] reads and
    the tests of [GitDescribe] build. *)
Record RepoHead := {
  LastTag : string;
  Hash : string;
  CommitsSinceTag : Z
}.

(** What a call of [NewFromHead] does: it returns a version and a nil error,
    it returns a non-nil error (the version beside it is dropped by every
    caller and is not kept here), or it panics. *)
Inductive outcome :=
| Built (v : Version)
| Failed (e : error)
| Panic.

(** [parts[i]] with Go's bounds check *)
Definition index (parts : list string) (i : nat) : option string :=
  nth_error parts i.

(** [NewFromHead] for a pointer that is not nil: [head] is the struct it
    points to. The nil pointer is the matter of [NewFromHead_ptr] below. *)
Definition NewFromHead (head : RepoHead) : outcome :=
  let v := zero_version (CommitsSinceTag head) in
  let v := if HasPrefix (LastTag head) DefaultPrefix
           then set_Prefix DefaultPrefix v else v in
  let version := TrimPrefix (LastTag head) (Prefix v) in
  let step_meta : option (string * Version) :=
    if Contains version "+" then
      let parts := Split version "+" in
      match index parts 0, index parts 1 with
      | Some p0, Some p1 => Some (p0, set_Meta p1 v)
      | _, _ => None
      end
    else if 0 <? CommitsSinceTag head then
      match slice_to (Hash head) 8 with
      | Some m => Some (version, set_Meta m v)
      | None => None
      end
    else Some (version, v) in
  match step_meta with
  | None => Panic
  | Some (version, v) =>
  let step_pre : option (string * Version) :=
    if Contains version "-" then
      let parts := Split version "-" in
      match index parts 0, index parts 1 with
      | Some p0, Some p1 => Some (p0, set_preRelease p1 v)
      | _, _ => None
      end
    else Some (version, v) in
  match step_pre with
  | None => Panic
  | Some (version, v) =>
  if (version =? "")%string then
    Built (set_Patch 0 (set_Minor 0 (set_Major 0 v)))
  else
    let parts := Split version "." in
    if negb (Nat.eqb (List.length parts) 3) then Failed (TagComponents version)
    else
      match index parts 0, index parts 1, index parts 2 with
      | Some p0, Some p1, Some p2 =>
          match Atoi p0 with
          | inl e => Failed (TagMajor e)
          | inr major =>
              match Atoi p1 with
              | inl e => Failed (TagMinor e)
              | inr minor =>
                  match Atoi p2 with
                  | inl e => Failed (TagPatch e)
                  | inr patch =>
                      Built (set_Patch patch (set_Minor minor (set_Major major v)))
                  end
              end
          end
      | _, _, _ => Panic
      end
  end end.

(** ** Notions the statements are written with *)

(** *** Format patterns *)

(** The optional tokens of a pattern, after the leading [x]. *)
Record tokens := {
  tok_y : bool;   (* .y *)
  tok_z : bool;   (* .z *)
  tok_p : bool;   (* -p *)
  tok_r : bool;   (* -r *)
  tok_m : bool    (* +m *)
}.

(** [eat a b s] takes the two bytes [a b] off the front of [s] when they are
    there. *)
Definition eat (a b : ascii) (s : string) : bool * string :=
  match s with
  | String a' (String b' s') =>
      if (Ascii.eqb a a' && Ascii.eqb b b')%bool then (true, s') else (false, s)
  | _ => (false, s)
  end.

(** The tokens found, in grammar order, at the front of [s], and what is
    left of [s] behind them. *)
Definition scan (s : string) : tokens * string :=
  let (y, s) := eat "." "y" s in
  let (z, s) := eat "." "z" s in
  let (p, s) := eat "-" "p" s in
  let (r, s) := eat "-" "r" s in
  let (m, s) := eat "+" "m" s in
  ({| tok_y := y; tok_z := z; tok_p := p; tok_r := r; tok_m := m |}, s).

(** What follows the first ['x'] of [s] *)
Fixpoint find_x (s : string) : option string :=
  match s with
  | EmptyString => None
  | String c s' => if Ascii.eqb c "x" then Some s' else find_x s'
  end.

(** The tokens of the first grammar match found within a pattern *)
Definition first_match (format : string) : option tokens :=
  match find_x format with
  | None => None
  | Some rest => Some (fst (scan rest))
  end.

(** The token grammar [x [.y] [.z] [-p] [-r] [+m]]: the whole pattern is
    tokens in this order and nothing else. *)
Definition grammar_pattern (format : string) : bool :=
  match format with
  | String c rest => (Ascii.eqb c "x" && (snd (scan rest) =? "")%string)%bool
  | EmptyString => false
  end.

(** The submatches 1 to 6 of a match with tokens [t] *)
Definition submatches (t : tokens) : list string :=
  [ "x";
    if tok_y t then ".y" else "";
    if tok_z t then ".z" else "";
    if tok_p t then "-p" else "";
    if tok_r t then "-r" else "";
    if tok_m t then "+m" else "" ].

(** A part of the output with its separator; nothing when the part is
    empty. *)
Definition with_sep (sep : ascii) (s : string) : string :=
  match s with
  | EmptyString => EmptyString
  | _ => String sep s
  end.

(** The number printed for the token [z] *)
Definition patch_shown (v : Version) : Z :=
  if ((0 <? Commits v) && (preRelease v =? "")%string)%bool
  then wrap64 (Patch v + 1) else Patch v.

(** The output for the tokens [x], [.y], [.z] and [-p] *)
Definition render_front (v : Version) (t : tokens) : string :=
  Prefix v ++ FormatInt (Major v)
    ++ (if tok_y t then "." ++ FormatInt (Minor v) else "")
    ++ (if tok_z t then "." ++ FormatInt (patch_shown v) else "")
    ++ (if tok_p t then with_sep "-" (PreRelease v) else "").

(** The output for the tokens [t] *)
Definition render (v : Version) (t : tokens) : res string :=
  let meta := if tok_m t then with_sep "+" (Meta v) else "" in
  if tok_r t then
    match ReleaseCandidate v with
    | Err e => Err e
    | Ok rc => Ok (render_front v t ++ with_sep "-" rc ++ meta)
    end
  else Ok (render_front v t ++ meta).

(** *** Release candidates *)

Fixpoint all_in (p : ascii -> bool) (s : string) : bool :=
  match s with
  | EmptyString => true
  | String c s' => (p c && all_in p s')%bool
  end.

Definition is_lower (c : ascii) : bool := in_class "a" "z" c.

(** [s] is [label "." digits]: one or more lowercase letters, a dot, one or
    more digits: the strings of [^[a-z]+\.[0-9]+$]. *)
Definition rc_shape (s label digits : string) : Prop :=
  s = label ++ "." ++ digits /\
  label <> "" /\ all_in is_lower label = true /\
  digits <> "" /\ all_in is_digit digits = true.

Definition matches_rc (s : string) : Prop :=
  exists label digits, rc_shape s label digits.

(** The length of the longest prefix of [s] made of bytes of a class *)
Fixpoint span (p : ascii -> bool) (s : string) : nat :=
  match s with
  | String c s' => if p c then S (span p s') else O
  | EmptyString => O
  end.

(** The label and the digits of [s] when it has the shape above, found by
    reading [s] from the left. *)
Definition rc_parts (s : string) : option (string * string) :=
  let n := span is_lower s in
  match drop n s with
  | String c digits =>
      if (Ascii.eqb "." c && (0 <? n)%nat && (0 <? span is_digit digits)%nat
          && (drop (span is_digit digits) digits =? "")%string)%bool
      then Some (take n s, digits) else None
  | EmptyString => None
  end.

(** The number a string of digits denotes, [n] being the value of the
    digits already read. *)
Fixpoint decimal_from (n : Z) (s : string) : Z :=
  match s with
  | EmptyString => n
  | String c s' => decimal_from (n * 10 + digit_val c) s'
  end.

Definition decimal (s : string) : Z := decimal_from 0 s.

(** *** Tags *)

(** The tag without its prefix *)
Definition tag_body (head : RepoHead) : string :=
  TrimPrefix (LastTag head) DefaultPrefix.

(** The tag body without metadata and pre-release: what is left of the
    first ['+'], then of that what is left of the first ['-']. *)
Definition numeric_core (head : RepoHead) : string :=
  before "-" (before "+" (tag_body head)).

Definition is_int (s : string) : bool :=
  match Atoi s with inr _ => true | inl _ => false end.

(** Exactly three dot-separated components, each parsing as an integer *)
Definition three_ints (core : string) : bool :=
  match Split core "." with
  | [a; b; c] => (is_int a && is_int b && is_int c)%bool
  | _ => false
  end.

(** The errors of a malformed tag *)
Definition invalid_tag_format (e : error) : bool :=
  match e with
  | TagComponents _ | TagMajor _ | TagMinor _ | TagPatch _ => true
  | _ => false
  end.

(** The slice [head.Hash[:8]] is in bounds whenever [NewFromHead] evaluates
    it, that is when the tag body has no ['+'] and there are commits since
    the tag. *)
Definition hash_in_bounds (head : RepoHead) : Prop :=
  Contains (tag_body head) "+" = false -> 0 < CommitsSinceTag head ->
  (8 <= String.length (Hash head))%nat.

(** ** The rest of the package and the command *)

(** [NewFromHead(head)] for the pointer [head] it receives: [None] is the
    nil pointer, which [head.CommitsSinceTag] dereferences on the first
    line of the function; a pointer that is not nil gives the [RepoHead] it
    points to. *)
Definition NewFromHead_ptr (head : option RepoHead) : outcome :=
  match head with
  | None => Panic
  | Some h => NewFromHead h
  end.

(** [Version.String]: the full format, or the empty string when [Format]
    fails. *)
Definition Version_String (v : Version) : string :=
  match Format v FullFormat with
  | Err _ => ""
  | Ok result => result
  end.

(** What a call of [NewFromRepo] does. The error it returns is the one of
    [GitDescribe] or the one of [NewFromHead]; [E] is the type of the errors
    of the functions that are not among the sources ([GitDescribe],
    [os.Getwd]). *)
Inductive repo_outcome (E : Type) :=
| RepoBuilt (v : Version)
| RepoFailed (e : E + error)
| RepoPanic.
Arguments RepoBuilt {E}.
Arguments RepoFailed {E}.
Arguments RepoPanic {E}.

(** [NewFromRepo], with [GitDescribe] as a parameter. *)
Definition NewFromRepo {E : Type} (GitDescribe : string -> E + RepoHead)
           (path : string) : repo_outcome E :=
  match GitDescribe path with
  | inl err => RepoFailed (inl err)
  | inr head =>
      match NewFromHead head with
      | Built v => RepoBuilt v
      | Failed err => RepoFailed (inr err)
      | Panic => RepoPanic
      end
  end.

(** The command-line flags of [main], by the variable that holds each. *)
Record flags := {
  flag_prefix : string;            (* -prefix *)
  flag_format : string;            (* -format *)
  excludeHash : bool;              (* -no-hash *)
  excludeMeta : bool;              (* -no-meta *)
  setMeta : string;                (* -set-meta *)
  excludePreRelease : bool;        (* -no-pre *)
  excludePatch : bool;             (* -no-patch *)
  excludeMinor : bool;             (* -no-minor *)
  flag_releaseCandidate : bool     (* -release-candidate *)
}.

(** The flags of a command line without options *)
Definition no_flags : flags :=
  {| flag_prefix := ""; flag_format := ""; excludeHash := false;
     excludeMeta := false; setMeta := ""; excludePreRelease := false;
     excludePatch := false; excludeMinor := false;
     flag_releaseCandidate := false |}.

Definition selectFormat (f : flags) : string :=
  if negb (flag_format f =? "")%string then flag_format f
  else if excludeMinor f then NoMinorFormat
  else if excludePatch f then NoPatchFormat
  else if excludePreRelease f then NoPreFormat
  else if (excludeHash f || excludeMeta f)%bool then NoMetaFormat
  else if flag_releaseCandidate f then ReleaseCandidateFormat
  else FullFormat.

(** How a run of the command ends: a line on the standard output and exit
    code 0, an error on the standard error and exit code 1, or a panic. *)
Inductive exit (E : Type) :=
| Stdout (line : string)
| Stderr (e : E + error)
| Crash.
Arguments Stdout {E}.
Arguments Stderr {E}.
Arguments Crash {E}.

(** [fmt.Println(s)] writes [s] and a newline. *)
Definition Println (s : string) : string := s ++ String "010" "".

(** [main]: [arg0] is [flag.Arg(0)], the empty string when the command line
    has no argument; [Getwd] is what [os.Getwd()] returns. *)
Definition main {E : Type} (GitDescribe : string -> E + RepoHead)
           (Getwd : E + string) (f : flags) (arg0 : string) : exit E :=
  match (if (arg0 =? "")%string then Getwd else inr arg0) with
  | inl err => Stderr (inl err)
  | inr repoPath =>
      match NewFromRepo GitDescribe repoPath with
      | RepoFailed err => Stderr err
      | RepoPanic => Crash
      | RepoBuilt v =>
          let v := if negb (setMeta f =? "")%string
                   then set_Meta (setMeta f) v else v in
          let v := if negb (flag_prefix f =? "")%string
                   then set_Prefix (flag_prefix f) v else v in
          match Format v (selectFormat f) with
          | Err err => Stderr (inr err)
          | Ok s => Stdout (Println s)
          end
      end
  end.

(** A tag in the form the package prints a version without commits since
    the tag: prefix, three numbers, pre-release and metadata behind their
    separators when they are not empty. *)
Definition tag_of (p a b c pre meta : string) : string :=
  p ++ a ++ "." ++ b ++ "." ++ c ++ with_sep "-" pre ++ with_sep "+" meta.

(** One or more digits denoting a number an [int] holds *)
Definition int_digits (s : string) : Prop :=
  s <> "" /\ all_in is_digit s = true /\ decimal s <= MaxInt64.

(** * Facts about the library functions *)

Section StringFacts.

Lemma append_nil_r (s : string) : (s ++ "")%string = s.
Proof. induction s as [|c s IH]; simpl; [reflexivity | now rewrite IH]. Qed.

Lemma append_assoc (a b c : string) :
  ((a ++ b) ++ c)%string = (a ++ (b ++ c))%string.
Proof. induction a as [|x a IH]; simpl; [reflexivity | now rewrite IH]. Qed.

Lemma take_append (a b : string) : take (String.length a) (a ++ b) = a.
Proof. induction a as [|x a IH]; simpl; [now destruct b | now rewrite IH]. Qed.

Lemma take_length (n : nat) (s : string) :
  (n <= String.length s)%nat -> String.length (take n s) = n.
Proof.
  revert s; induction n as [|n IH]; intros s H; [reflexivity|].
  destruct s as [|c s]; simpl in *; [lia | rewrite IH; lia].
Qed.

Lemma Split_before_after (sep : ascii) (s : string) :
  Split s sep =
  before sep s :: (if Contains s sep then Split (after sep s) sep else []).
Proof.
  induction s as [|c s IH]; simpl; [reflexivity|].
  destruct (Ascii.eqb c sep); [reflexivity|].
  rewrite IH. reflexivity.
Qed.

Lemma Split_no_sep (sep : ascii) (s : string) :
  Contains s sep = false -> Split s sep = [s].
Proof.
  induction s as [|c s IH]; simpl; [reflexivity|].
  destruct (Ascii.eqb c sep); [discriminate|].
  intros H. now rewrite (IH H).
Qed.

Lemma before_no_sep (sep : ascii) (s : string) :
  Contains s sep = false -> before sep s = s.
Proof.
  induction s as [|c s IH]; simpl; [reflexivity|].
  destruct (Ascii.eqb c sep); [discriminate|].
  intros H. now rewrite (IH H).
Qed.

Lemma before_free (sep : ascii) (s : string) :
  Contains (before sep s) sep = false.
Proof.
  induction s as [|c s IH]; simpl; [reflexivity|].
  destruct (Ascii.eqb c sep) eqn:E; simpl; [reflexivity | now rewrite E].
Qed.

(** The two pieces [parts[0]] and [parts[1]] the code reads after a
    successful [Contains]. *)
Lemma Split_index_0 (sep : ascii) (s : string) :
  index (Split s sep) 0 = Some (before sep s).
Proof. now rewrite Split_before_after. Qed.

Lemma Split_index_1 (sep : ascii) (s : string) :
  Contains s sep = true ->
  index (Split s sep) 1 = Some (before sep (after sep s)).
Proof.
  intros H. rewrite Split_before_after, H. simpl.
  now rewrite Split_before_after.
Qed.

Lemma before_after (sep : ascii) (s : string) :
  Contains s sep = true ->
  s = (before sep s ++ String sep (after sep s))%string.
Proof.
  induction s as [|c s IH]; simpl; [discriminate|].
  destruct (Ascii.eqb_spec c sep) as [->|N]; [reflexivity|].
  intros H. simpl. now rewrite <- (IH H).
Qed.

Lemma FormatInt_nonempty (i : Z) : FormatInt i <> "".
Proof.
  unfold FormatInt. destruct i as [|p|p]; simpl; try discriminate.
  pose proof (DecimalPos.Unsigned.to_uint_nonnil p) as N.
  destruct (Pos.to_uint p); simpl; try discriminate. now elim N.
Qed.

Lemma len_pos (s : string) : s <> "" -> (0 <? len s) = true.
Proof.
  destruct s; [congruence|]. intros _. unfold len. simpl String.length.
  apply Z.ltb_lt. lia.
Qed.

Lemma wrap64_small (z : Z) : MinInt64 <= z <= MaxInt64 -> wrap64 z = z.
Proof.
  unfold MinInt64, MaxInt64, wrap64. intros H.
  rewrite Z.mod_small; lia.
Qed.

(** [i++] adds one unless [i] is the largest [int]. *)
Lemma incr_no_overflow (i : Z) : MinInt64 <= i < MaxInt64 -> incr i = i + 1.
Proof. intros H. unfold incr. apply wrap64_small. lia. Qed.

End StringFacts.

(** * The pattern of [Format] *)

Section FormatPattern.

Lemma run_Cat (A : Type) (r1 r2 : regex) (pos : nat) (s : string) (c : caps)
      (k : cont A) :
  run (Cat r1 r2) pos s c k
  = run r1 pos s c (fun pos' s' c' => run r2 pos' s' c' k).
Proof. reflexivity. Qed.

(** An optional two-byte token in front of a continuation that cannot fail:
    the token is taken exactly when it is there. *)
Lemma run_optional_token (A : Type) (i : nat) (n : string) (a b : ascii)
      (pos : nat) (s : string) (c : caps) (k : cont A) :
  (forall pos' s' c', k pos' s' c' <> None) ->
  run (Opt (Group i n (Cat (Lit a) (Lit b)))) pos s c k =
  k (if fst (eat a b s) then S (S pos) else pos)
    (snd (eat a b s))
    (if fst (eat a b s) then set_cap i (String a (String b "")) c else c).
Proof.
  intros Hk. cbn [run]. unfold eat.
  destruct s as [|a' [|b' s']]; cbn [fst snd].
  - reflexivity.
  - destruct (Ascii.eqb a a'); reflexivity.
  - destruct (Ascii.eqb_spec a a') as [<-|Na]; cbn [andb fst snd]; [|reflexivity].
    destruct (Ascii.eqb_spec b b') as [<-|Nb]; cbn [fst snd]; [|reflexivity].
    replace (S (S pos) - pos)%nat with 2%nat by lia. cbn [take].
    destruct (k (S (S pos)) s' (set_cap i (String a (String b "")) c)) eqn:E;
      [reflexivity | now elim (Hk _ _ _ E)].
Qed.

Lemma run_optional_token_total (A : Type) (i : nat) (n : string) (a b : ascii)
      (r : regex) (k : cont A) :
  (forall pos s c, run r pos s c k <> None) ->
  forall pos s c,
    run (Cat (Opt (Group i n (Cat (Lit a) (Lit b)))) r) pos s c k <> None.
Proof.
  intros Hk pos s c. rewrite run_Cat, run_optional_token by assumption.
  apply Hk.
Qed.

Lemma run_major (A : Type) (pos : nat) (rest : string) (c : caps)
      (k : cont A) :
  run (Group 1 "major" (Lit "x")) pos (String "x" rest) c k
  = k (S pos) rest (set_cap 1 "x" c).
Proof.
  cbn [run]. rewrite Ascii.eqb_refl.
  replace (S pos - pos)%nat with 1%nat by lia. reflexivity.
Qed.

(** At a position that holds ['x'] the pattern matches, with the tokens
    [scan] finds behind it. *)
Lemma match_here_format_x (pos : nat) (rest : string) :
  exists whole,
    match_here re_format pos (String "x" rest)
    = Some (whole :: submatches (fst (scan rest))).
Proof.
  unfold match_here.
  change (repeat "" (S (NumSubexp re_format)))
    with ["" ; "" ; "" ; "" ; "" ; "" ; ""]%string.
  unfold re_format. rewrite run_Cat, run_major.
  set (k6 := fun (pos' : nat) (_ : string) (c : caps) =>
               Some (set_cap 0 (take (pos' - pos) (String "x" rest)) c)).
  assert (T6 : forall p s c,
             run (Opt (Group 6 "meta" (Cat (Lit "+") (Lit "m")))) p s c k6
             <> None).
  { intros p s c. rewrite run_optional_token; intros; discriminate. }
  pose proof (run_optional_token_total _ 5 "release_candidate" "-" "r" _ _ T6)
    as T5.
  pose proof (run_optional_token_total _ 4 "pre" "-" "p" _ _ T5) as T4.
  pose proof (run_optional_token_total _ 3 "patch" "." "z" _ _ T4) as T3.
  rewrite run_Cat, run_optional_token by exact T3.
  rewrite run_Cat, run_optional_token by exact T4.
  rewrite run_Cat, run_optional_token by exact T5.
  rewrite run_Cat, run_optional_token by exact T6.
  rewrite run_optional_token by (intros; discriminate).
  unfold scan, k6, submatches.
  destruct (eat "." "y" rest) as [y s1]; cbn [fst snd].
  destruct (eat "." "z" s1) as [z s2]; cbn [fst snd].
  destruct (eat "-" "p" s2) as [p s3]; cbn [fst snd].
  destruct (eat "-" "r" s3) as [r s4]; cbn [fst snd].
  destruct (eat "+" "m" s4) as [m s5]; cbn [fst snd].
  cbn [tok_y tok_z tok_p tok_r tok_m].
  destruct y, z, p, r, m; cbn [set_cap]; eexists; reflexivity.
Qed.

(** Elsewhere the pattern does not match. *)
Lemma match_here_format_other (pos : nat) (s : string) :
  (forall rest, s <> String "x" rest) ->
  match_here re_format pos s = None.
Proof.
  intros H. unfold match_here, re_format. rewrite run_Cat. cbn [run].
  destruct s as [|c s]; [reflexivity|].
  destruct (Ascii.eqb_spec "x" c) as [<-|N]; [now elim (H s) | reflexivity].
Qed.

(** The leftmost match starts at the first ['x']; without an ['x'] there is
    none. *)
Lemma search_format (pos : nat) (s : string) :
  match find_x s with
  | None => search re_format pos s = None
  | Some rest =>
      exists whole,
        search re_format pos s = Some (whole :: submatches (fst (scan rest)))
  end.
Proof.
  revert pos; induction s as [|c s IH]; intros pos.
  - cbn [find_x search]. now rewrite match_here_format_other by discriminate.
  - cbn [find_x search].
    destruct (Ascii.eqb_spec c "x") as [->|N].
    + destruct (match_here_format_x pos s) as [w ->]. now exists w.
    + rewrite match_here_format_other by (intros rest E; congruence).
      apply IH.
Qed.

Lemma FindStringSubmatch_format (format : string) :
  match first_match format with
  | None => FindStringSubmatch re_format format = None
  | Some t =>
      exists whole,
        FindStringSubmatch re_format format = Some (whole :: submatches t)
  end.
Proof.
  unfold first_match, FindStringSubmatch.
  pose proof (search_format 0 format) as H.
  destruct (find_x format); exact H.
Qed.

End FormatPattern.

(** * Format *)

Section FormatFacts.

Lemma with_sep_nonempty (sep : ascii) (s : string) :
  s <> "" -> with_sep sep s = String sep s.
Proof. destruct s; [congruence | reflexivity]. Qed.

Lemma AppendString_empty (s : string) (sep : ascii) : AppendString "" s sep = s.
Proof.
  unfold AppendString. rewrite Bool.andb_false_r. reflexivity.
Qed.

(** Once something is in the buffer, a part that is not empty is appended
    behind its separator and an empty part leaves the buffer as it is. *)
Lemma AppendString_nonempty (b s : string) (sep : ascii) :
  b <> "" -> AppendString b s sep = (b ++ with_sep sep s)%string.
Proof.
  intros Hb. unfold AppendString. rewrite (len_pos b Hb), Bool.andb_true_r.
  destruct s as [|c s].
  - cbn. now rewrite !append_nil_r.
  - rewrite len_pos by discriminate. cbn [with_sep].
    rewrite append_assoc. reflexivity.
Qed.

Lemma AppendString_keeps_nonempty (b s : string) (sep : ascii) :
  b <> "" -> AppendString b s sep <> "".
Proof.
  intros Hb. rewrite AppendString_nonempty by assumption.
  destruct b; [congruence | discriminate].
Qed.

Lemma ReleaseCandidate_nonempty (v : Version) (rc : string) :
  ReleaseCandidate v = Ok rc -> rc <> "".
Proof.
  unfold ReleaseCandidate.
  destruct (preRelease v =? "")%string; [intros [= <-]; discriminate|].
  destruct (negb _); [discriminate|].
  destruct (FindStringSubmatch _ _) as [st|]; [|discriminate].
  destruct (negb _); [discriminate|].
  destruct (ParseInt _) as [e|i]; [discriminate|].
  intros [= <-]. intros E.
  destruct (nth 1 st ""); discriminate.
Qed.

(** The loop over the submatches prints exactly the tokens of the match. *)
Lemma format_loop_submatches (v : Version) (t : tokens) (whole : string) :
  format_loop v (SubexpNames re_format) 0 (whole :: submatches t) ""
  = render v t.
Proof.
  change (SubexpNames re_format)
    with ["" ; "major" ; "minor" ; "patch" ; "pre" ; "release_candidate" ; "meta"]%string.
  assert (H0 : forall rest buf,
    format_loop v ["" ; "major" ; "minor" ; "patch" ; "pre" ; "release_candidate" ; "meta"]%string
                0 (whole :: rest) buf
    = format_loop v ["" ; "major" ; "minor" ; "patch" ; "pre" ; "release_candidate" ; "meta"]%string
                  1 rest buf).
  { intros rest buf. cbn [format_loop].
    destruct (Nat.eqb (String.length whole) 0); reflexivity. }
  rewrite H0. clear H0.
  pose proof (FormatInt_nonempty (Major v)) as NM.
  pose proof (ReleaseCandidate_nonempty v) as NR.
  unfold render, render_front, submatches, patch_shown.
  destruct t as [y z p r m]; cbn [tok_y tok_z tok_p tok_r tok_m].
  destruct y, z, p, r, m;
    cbn [format_loop String.length Nat.eqb nth String.eqb Ascii.eqb Bool.eqb];
    try (destruct (ReleaseCandidate v) as [rc|e]; [specialize (NR rc eq_refl)|reflexivity]);
    unfold AppendInt, incr; rewrite AppendString_empty;
    repeat (rewrite AppendString_nonempty
              by (repeat apply AppendString_keeps_nonempty; exact NM));
    rewrite ?(with_sep_nonempty _ (FormatInt _)) by apply FormatInt_nonempty;
    rewrite ?(with_sep_nonempty _ rc) by exact NR;
    repeat (progress (rewrite ?append_assoc, ?append_nil_r; cbn [append]));
    reflexivity.
Qed.

(** [Format] fails on a pattern without ['x'] and otherwise prints the tokens
    of the first match. *)
Lemma Format_render (v : Version) (format : string) :
  Format v format =
  match first_match format with
  | None => Err (InvalidFormat format)
  | Some t => render v t
  end.
Proof.
  unfold Format. pose proof (FindStringSubmatch_format format) as H.
  destruct (first_match format) as [t|].
  - destruct H as [whole ->]. apply format_loop_submatches.
  - now rewrite H.
Qed.

End FormatFacts.

(** * The pattern of [ReleaseCandidate] *)

Section ReleaseCandidatePattern.

Lemma take_drop (n : nat) (s : string) : (take n s ++ drop n s)%string = s.
Proof.
  revert s; induction n as [|n IH]; intros s; [reflexivity|].
  destruct s as [|c s]; cbn; [reflexivity | now rewrite IH].
Qed.

Lemma drop_append (a b : string) : drop (String.length a) (a ++ b) = b.
Proof. induction a as [|x a IH]; cbn; [reflexivity | exact IH]. Qed.

Lemma all_in_take_span (p : ascii -> bool) (s : string) :
  all_in p (take (span p s) s) = true.
Proof.
  induction s as [|c s IH]; cbn; [reflexivity|].
  destruct (p c) eqn:E; cbn; [now rewrite E, IH | reflexivity].
Qed.

Lemma span_all_in (p : ascii -> bool) (a rest : string) :
  all_in p a = true -> span p rest = 0%nat ->
  span p (a ++ rest) = String.length a.
Proof.
  intros Ha Hr. induction a as [|c a IH]; cbn in *; [exact Hr|].
  apply Bool.andb_true_iff in Ha as [-> Ha]. now rewrite IH.
Qed.

Lemma span_le (p : ascii -> bool) (s : string) :
  (span p s <= String.length s)%nat.
Proof.
  induction s as [|c s IH]; cbn; [lia|]. destruct (p c); lia.
Qed.

Lemma drop_all (n : nat) (s : string) :
  (n <= String.length s)%nat -> drop n s = "" -> n = String.length s.
Proof.
  revert s; induction n as [|n IH]; intros s Hn H.
  - cbn in H. now subst s.
  - destruct s as [|c s]; cbn in *; [lia|]. f_equal. apply IH; [lia | exact H].
Qed.

Lemma take_all (s : string) : take (String.length s) s = s.
Proof. induction s as [|c s IH]; cbn; [reflexivity | now rewrite IH]. Qed.

(** A dot is not a lowercase letter. *)
Lemma lower_not_dot (b : ascii) : is_lower b = true -> Ascii.eqb "." b = false.
Proof.
  destruct b as [[] [] [] [] [] [] [] []]; cbv; intros H;
    try reflexivity; discriminate H.
Qed.

(** [c*] in front of a continuation that refuses a byte of the class takes
    the longest run of the class. *)
Lemma star_class_longest (A : Type) (lo hi : ascii) (k : cont A) :
  (forall pos a s c, in_class lo hi a = true -> k pos (String a s) c = None) ->
  forall s pos c,
    star_class lo hi pos s c k
    = k (pos + span (in_class lo hi) s)%nat (drop (span (in_class lo hi) s) s) c.
Proof.
  intros Hk. induction s as [|a s IH]; intros pos c; cbn [star_class span drop].
  - now rewrite Nat.add_0_r.
  - destruct (in_class lo hi a) eqn:E.
    + rewrite IH. cbn [drop]. replace (S pos + _)%nat
        with (pos + S (span (in_class lo hi) s))%nat by lia.
      destruct (k _ _ c) eqn:K; [reflexivity|]. now apply Hk.
    + now rewrite Nat.add_0_r.
Qed.

Lemma run_PlusClass (A : Type) (lo hi : ascii) (k : cont A) :
  (forall pos a s c, in_class lo hi a = true -> k pos (String a s) c = None) ->
  forall s pos c,
    run (PlusClass lo hi) pos s c k
    = if (0 <? span (in_class lo hi) s)%nat
      then k (pos + span (in_class lo hi) s)%nat
             (drop (span (in_class lo hi) s) s) c
      else None.
Proof.
  intros Hk s pos c. cbn [run]. destruct s as [|a s]; [reflexivity|].
  cbn [span]. destruct (in_class lo hi a) eqn:E; [|reflexivity].
  rewrite star_class_longest by exact Hk. cbn [Nat.ltb Nat.leb drop].
  now replace (S pos + _)%nat with (pos + S (span (in_class lo hi) s))%nat by lia.
Qed.

Lemma run_Group (A : Type) (i : nat) (n : string) (r : regex) (pos : nat)
      (s : string) (c : caps) (k : cont A) :
  run (Group i n r) pos s c k
  = run r pos s c
        (fun pos' s' c' => k pos' s' (set_cap i (take (pos' - pos) s) c')).
Proof. reflexivity. Qed.

Lemma run_Lit (A : Type) (a : ascii) (pos : nat) (s : string) (c : caps)
      (k : cont A) :
  run (Lit a) pos s c k
  = match s with
    | String b s' => if Ascii.eqb a b then k (S pos) s' c else None
    | EmptyString => None
    end.
Proof. reflexivity. Qed.

(** The pattern at the start of the input *)
Lemma match_here_rc (s : string) :
  match rc_parts s with
  | Some (label, digits) =>
      exists whole,
        match_here re_release_candidate 0 s = Some [whole; label; digits]
  | None => match_here re_release_candidate 0 s = None
  end.
Proof.
  unfold match_here.
  change (repeat "" (S (NumSubexp re_release_candidate)))
    with ["" ; "" ; ""]%string.
  unfold re_release_candidate. rewrite run_Cat.
  change (run Bol 0 s ?c ?k) with (k 0%nat s c). cbn beta.
  rewrite run_Cat, run_Group, run_PlusClass.
  2:{ intros pos a t c Ha. rewrite run_Cat. cbn [run].
      now rewrite (lower_not_dot a Ha). }
  unfold rc_parts. change (in_class "a" "z") with is_lower.
  set (n := span is_lower s).
  destruct (0 <? n)%nat eqn:Hn.
  2:{ destruct (drop n s); [reflexivity|].
      now rewrite Bool.andb_false_r. }
  rewrite run_Cat, run_Lit. cbn [Nat.add].
  destruct (drop n s) as [|c digits]; [reflexivity|].
  destruct (Ascii.eqb "." c); [|reflexivity].
  cbn [andb]. rewrite run_Cat, run_Group, run_PlusClass by (intros; reflexivity).
  change (in_class "0" "9") with is_digit.
  destruct (0 <? span is_digit digits)%nat; [|reflexivity].
  cbn [andb run].
  destruct (drop (span is_digit digits) digits) eqn:D; [|reflexivity].
  cbn [String.eqb set_cap]. rewrite !Nat.sub_0_r.
  replace (S n + span is_digit digits - S n)%nat
    with (span is_digit digits) by lia.
  rewrite (drop_all _ _ (span_le _ _) D), take_all.
  eexists. reflexivity.
Qed.

(** The pattern starts with [^]: no match begins past the start. *)
Lemma search_rc_later (s : string) (pos : nat) :
  search re_release_candidate (S pos) s = None.
Proof.
  revert pos; induction s as [|c s IH]; intros pos; cbn [search].
  - reflexivity.
  - change (match_here re_release_candidate (S pos) (String c s)) with (@None caps).
    apply IH.
Qed.

Lemma FindStringSubmatch_rc (s : string) :
  match rc_parts s with
  | Some (label, digits) =>
      exists whole,
        FindStringSubmatch re_release_candidate s = Some [whole; label; digits]
  | None => FindStringSubmatch re_release_candidate s = None
  end.
Proof.
  unfold FindStringSubmatch. pose proof (match_here_rc s) as H.
  destruct (rc_parts s) as [[l d]|].
  - destruct H as [w H]. exists w. destruct s; cbn [search]; now rewrite H.
  - destruct s as [|c s]; cbn [search]; rewrite H; [reflexivity|].
    apply search_rc_later.
Qed.

End ReleaseCandidatePattern.

(** * ReleaseCandidate *)

Section ReleaseCandidateFacts.

(** [rc_parts] computes the decomposition [rc_shape] describes. *)
Lemma rc_parts_shape (s label digits : string) :
  rc_parts s = Some (label, digits) <-> rc_shape s label digits.
Proof.
  unfold rc_parts, rc_shape. split.
  - set (n := span is_lower s).
    destruct (drop n s) as [|c d] eqn:D; [discriminate|].
    destruct (Ascii.eqb_spec "." c) as [<-|]; [|discriminate].
    destruct (0 <? n)%nat eqn:Hn; [|discriminate].
    destruct (0 <? span is_digit d)%nat eqn:Hm; [|discriminate].
    destruct (String.eqb_spec (drop (span is_digit d) d) "") as [E|];
      [|discriminate].
    cbn [andb]. intros [= <- <-].
    apply Nat.ltb_lt in Hn, Hm.
    pose proof (span_le is_lower s) as Ln.
    pose proof (drop_all _ _ (span_le is_digit d) E) as Lm.
    repeat split.
    + rewrite <- (take_drop n s) at 1. now rewrite D.
    + intros Z. pose proof (take_length n s Ln) as L. rewrite Z in L.
      cbn in L. lia.
    + apply all_in_take_span.
    + intros ->. cbn in Hm. lia.
    + rewrite <- (take_all d) at 1. rewrite <- Lm. apply all_in_take_span.
  - intros (-> & Nl & Al & Nd & Ad).
    assert (S0 : span is_lower ("." ++ digits) = 0%nat) by reflexivity.
    rewrite (span_all_in _ _ _ Al S0), drop_append, take_append.
    cbn [append]. rewrite Ascii.eqb_refl.
    assert (Sd : span is_digit digits = String.length digits).
    { rewrite <- (append_nil_r digits) at 1. now apply span_all_in. }
    rewrite Sd.
    assert (Dd : drop (String.length digits) digits = "").
    { rewrite <- (append_nil_r digits) at 2. apply drop_append. }
    rewrite Dd.
    destruct label; [congruence|]. destruct digits; [congruence|].
    reflexivity.
Qed.

Lemma digit_val_range (c : ascii) : is_digit c = true -> 0 <= digit_val c <= 9.
Proof.
  destruct c as [[] [] [] [] [] [] [] []]; cbv; intros H;
    try discriminate H; split; discriminate.
Qed.

Lemma digit_not_sign (c : ascii) :
  is_digit c = true -> Ascii.eqb c "-" = false /\ Ascii.eqb c "+" = false.
Proof.
  destruct c as [[] [] [] [] [] [] [] []]; cbv; intros H;
    try discriminate H; split; reflexivity.
Qed.

Lemma decimal_from_ge (s : string) (n : Z) :
  all_in is_digit s = true -> 0 <= n -> n <= decimal_from n s.
Proof.
  revert n; induction s as [|c s IH]; intros n A Hn; cbn in *; [lia|].
  apply Bool.andb_true_iff in A as [Hc A].
  pose proof (digit_val_range c Hc).
  specialize (IH (n * 10 + digit_val c) A). lia.
Qed.

(** On digits [ParseUint] returns their value, or the range error when the
    value does not fit 64 bits. *)
Lemma parse_uint_loop_digits (s : string) (n : Z) :
  all_in is_digit s = true -> 0 <= n <= MaxUint64 ->
  parse_uint_loop n s
  = if decimal_from n s <=? MaxUint64 then inr (decimal_from n s)
    else inl ErrRange.
Proof.
  assert (C : MaxUint64 / 10 + 1 = 1844674407370955162) by reflexivity.
  assert (M : MaxUint64 = 18446744073709551615) by reflexivity.
  revert n; induction s as [|c s IH]; intros n A Hn; cbn [parse_uint_loop decimal_from].
  - destruct (Z.leb_spec n MaxUint64); [reflexivity | lia].
  - cbn in A. apply Bool.andb_true_iff in A as [Hc A]. rewrite Hc.
    pose proof (digit_val_range c Hc) as Hd.
    pose proof (decimal_from_ge s (n * 10 + digit_val c) A ltac:(lia)) as G.
    rewrite C.
    destruct (Z.leb_spec 1844674407370955162 n) as [L|L].
    + destruct (Z.leb_spec (decimal_from (n * 10 + digit_val c) s) MaxUint64);
        [lia | reflexivity].
    + destruct (Z.ltb_spec MaxUint64 (n * 10 + digit_val c)) as [L'|L'].
      * destruct (Z.leb_spec (decimal_from (n * 10 + digit_val c) s) MaxUint64);
          [lia | reflexivity].
      * apply IH; [exact A | lia].
Qed.

(** On digits [ParseInt] returns their value when it is at most [MaxInt64]
    and the range error otherwise. *)
Lemma ParseInt_digits (d : string) :
  d <> "" -> all_in is_digit d = true ->
  ParseInt d
  = if decimal d <=? MaxInt64 then inr (decimal d)
    else inl {| Num := d; Kind := ErrRange |}.
Proof.
  intros Nd A. destruct d as [|c d]; [congruence|].
  pose proof A as A'. cbn in A'. apply Bool.andb_true_iff in A' as [Hc _].
  destruct (digit_not_sign c Hc) as [E1 E2].
  unfold ParseInt. rewrite E1, E2. cbn [orb negb andb].
  unfold ParseUint. rewrite parse_uint_loop_digits by (try exact A; cbv; split; discriminate).
  fold (decimal (String c d)).
  pose proof (decimal_from_ge (String c d) 0 A ltac:(lia)) as G.
  fold (decimal (String c d)) in G.
  assert (M : MaxUint64 = 18446744073709551615) by reflexivity.
  assert (M' : MaxInt64 = 9223372036854775807) by reflexivity.
  assert (P : 2 ^ 63 = 9223372036854775808) by reflexivity.
  rewrite P.
  destruct (Z.leb_spec (decimal (String c d)) MaxUint64);
    destruct (Z.leb_spec (decimal (String c d)) MaxInt64); try lia;
    try reflexivity.
  - destruct (Z.leb_spec 9223372036854775808 (decimal (String c d)));
      [lia | reflexivity].
  - destruct (Z.leb_spec 9223372036854775808 (decimal (String c d)));
      [reflexivity | lia].
Qed.

(** What [ReleaseCandidate] returns, by the shape of the pre-release. *)
Lemma ReleaseCandidate_parts (v : Version) :
  ReleaseCandidate v =
  if (preRelease v =? "")%string then Ok "rc.1"
  else match rc_parts (preRelease v) with
       | None => Err BadReleaseCandidate
       | Some (label, digits) =>
           match ParseInt digits with
           | inl e => Err (NumErr e)
           | inr i =>
               Ok (label ++ "."
                     ++ FormatInt (if 0 <? Commits v then wrap64 (i + 1) else i))
           end
       end.
Proof.
  unfold ReleaseCandidate, MatchString.
  destruct (preRelease v =? "")%string; [reflexivity|].
  pose proof (FindStringSubmatch_rc (preRelease v)) as H.
  destruct (rc_parts (preRelease v)) as [[l d]|].
  - destruct H as [w ->]. cbn [negb List.length Nat.eqb nth].
    destruct (ParseInt d); reflexivity.
  - rewrite H. reflexivity.
Qed.

End ReleaseCandidateFacts.

(** * NewFromHead *)

Section NewFromHeadFacts.

Lemma TrimPrefix_empty (s : string) : TrimPrefix s "" = s.
Proof. unfold TrimPrefix, HasPrefix. now destruct s. Qed.

(** [NewFromHead] step by step: the metadata (absent when the hash cannot
    be sliced), the pre-release, and the numeric core with its three
    components. *)
Lemma NewFromHead_steps (head : RepoHead) :
  NewFromHead head =
  let body := tag_body head in
  let working := before "+" body in
  let core := before "-" working in
  match (if Contains body "+" then Some (before "+" (after "+" body))
         else if 0 <? CommitsSinceTag head then slice_to (Hash head) 8
         else Some "") with
  | None => Panic
  | Some meta =>
      let v :=
        {| Prefix := if HasPrefix (LastTag head) DefaultPrefix
                     then DefaultPrefix else "";
           Major := 0; Minor := 0; Patch := 0;
           preRelease := if Contains working "-"
                         then before "-" (after "-" working) else "";
           Commits := CommitsSinceTag head;
           Meta := meta;
           releaseCandidate := 0 |} in
      if (core =? "")%string then Built v
      else
        match Split core "." with
        | [a; b; c] =>
            match Atoi a with
            | inl e => Failed (TagMajor e)
            | inr major =>
                match Atoi b with
                | inl e => Failed (TagMinor e)
                | inr minor =>
                    match Atoi c with
                    | inl e => Failed (TagPatch e)
                    | inr patch =>
                        Built (set_Patch patch
                                 (set_Minor minor (set_Major major v)))
                    end
                end
            end
        | _ => Failed (TagComponents core)
        end
  end.
Proof.
  unfold NewFromHead, tag_body.
  assert (B : TrimPrefix (LastTag head)
                (Prefix (if HasPrefix (LastTag head) DefaultPrefix
                         then set_Prefix DefaultPrefix
                                (zero_version (CommitsSinceTag head))
                         else zero_version (CommitsSinceTag head)))
              = TrimPrefix (LastTag head) DefaultPrefix).
  { destruct (HasPrefix (LastTag head) DefaultPrefix) eqn:HP; [reflexivity|].
    cbn [Prefix zero_version]. rewrite TrimPrefix_empty.
    unfold TrimPrefix. now rewrite HP. }
  rewrite B. clear B.
  set (body := TrimPrefix (LastTag head) DefaultPrefix).
  cbv zeta.
  destruct (Contains body "+") eqn:CP.
  - rewrite Split_index_0, (Split_index_1 _ _ CP).
    destruct (Contains (before "+" body) "-") eqn:CM.
    + rewrite Split_index_0, (Split_index_1 _ _ CM).
      destruct (HasPrefix (LastTag head) DefaultPrefix);
        (destruct (before "-" (before "+" body) =? "")%string; [reflexivity|]);
        destruct (Split (before "-" (before "+" body)) ".")
          as [|a [|b [|c [|d rest]]]]; try reflexivity;
        cbn [List.length Nat.eqb negb index nth_error];
        destruct (Atoi a); try reflexivity;
        destruct (Atoi b); try reflexivity;
        destruct (Atoi c); reflexivity.
    + rewrite (before_no_sep _ _ CM).
      destruct (HasPrefix (LastTag head) DefaultPrefix);
        (destruct (before "+" body =? "")%string; [reflexivity|]);
        destruct (Split (before "+" body) ".")
          as [|a [|b [|c [|d rest]]]]; try reflexivity;
        cbn [List.length Nat.eqb negb index nth_error];
        destruct (Atoi a); try reflexivity;
        destruct (Atoi b); try reflexivity;
        destruct (Atoi c); reflexivity.
  - rewrite (before_no_sep _ _ CP).
    destruct (0 <? CommitsSinceTag head);
      [destruct (slice_to (Hash head) 8) as [m|]; [|reflexivity]|];
      (destruct (Contains body "-") eqn:CM;
       [ rewrite Split_index_0, (Split_index_1 _ _ CM)
       | rewrite (before_no_sep _ _ CM) ]);
      destruct (HasPrefix (LastTag head) DefaultPrefix);
      match goal with
      | |- context [(?x =? "")%string] =>
          destruct (x =? "")%string; [reflexivity|];
          destruct (Split x ".") as [|a [|b [|c [|d rest]]]]
      end; try reflexivity;
      cbn [List.length Nat.eqb negb index nth_error];
      destruct (Atoi a); try reflexivity;
      destruct (Atoi b); try reflexivity;
      destruct (Atoi c); reflexivity.
Qed.

End NewFromHeadFacts.

(** * Atoi *)

Section AtoiFacts.

(** On an input of at most 18 bytes the loop of the fast path and the loop
    of [ParseUint] read the same number and no check of the latter fires. *)
Lemma fast_loop_agrees (s : string) (n : Z) :
  (String.length s <= 18)%nat ->
  0 <= n < 10 ^ Z.of_nat (18 - String.length s) ->
  parse_uint_loop n s
  = match atoi_fast_loop n s with
    | Some x => inr x
    | None => inl ErrSyntax
    end
  /\ forall x, atoi_fast_loop n s = Some x -> 0 <= x < 10 ^ 18.
Proof.
  assert (C : MaxUint64 / 10 + 1 = 1844674407370955162) by reflexivity.
  assert (M : MaxUint64 = 18446744073709551615) by reflexivity.
  assert (P : 10 ^ 18 = 1000000000000000000) by reflexivity.
  revert n; induction s as [|c s IH]; intros n L Hn;
    cbn [parse_uint_loop atoi_fast_loop].
  - split; [reflexivity|]. intros x [= <-].
    change (Z.of_nat (18 - String.length "")) with 18 in Hn. lia.
  - cbn [String.length] in L, Hn.
    destruct (is_digit c) eqn:Hc; [|split; [reflexivity | discriminate]].
    pose proof (digit_val_range c Hc) as Hd.
    replace (18 - String.length s)%nat with (S (18 - S (String.length s)))
      in IH by lia.
    rewrite Nat2Z.inj_succ, Z.pow_succ_r in IH by lia.
    assert (B : 10 ^ Z.of_nat (18 - S (String.length s)) <= 10 ^ 18).
    { apply Z.pow_le_mono_r; lia. }
    rewrite C.
    destruct (Z.leb_spec 1844674407370955162 n); [lia|].
    destruct (Z.ltb_spec MaxUint64 (n * 10 + digit_val c)); [lia|].
    apply IH; lia.
Qed.

Lemma fast_path_ParseUint (body : string) :
  (String.length body <= 18)%nat -> body <> "" ->
  match atoi_fast_loop 0 body with
  | Some x => ParseUint body = inr x /\ 0 <= x < 2 ^ 63
  | None => ParseUint body = inl ErrSyntax
  end.
Proof.
  intros L N.
  assert (P : 10 ^ 18 = 1000000000000000000) by reflexivity.
  assert (Q : 2 ^ 63 = 9223372036854775808) by reflexivity.
  destruct (fast_loop_agrees body 0 L) as [E R].
  { split; [lia|]. apply Z.pow_pos_nonneg; lia. }
  replace (ParseUint body) with (parse_uint_loop 0 body)
    by (destruct body; [congruence | reflexivity]).
  rewrite E. destruct (atoi_fast_loop 0 body) as [x|]; [|reflexivity].
  specialize (R x eq_refl). split; [reflexivity | lia].
Qed.

(** [Atoi] is [ParseInt]: the fast path changes no result. *)
Lemma Atoi_ParseInt (s : string) : Atoi s = ParseInt s.
Proof.
  unfold Atoi.
  destruct ((0 <? String.length s)%nat && (String.length s <? 19)%nat)%bool
    eqn:F; [|reflexivity].
  apply Bool.andb_true_iff in F as [_ L]. apply Nat.ltb_lt in L.
  destruct s as [|c s']; [reflexivity|].
  cbn [String.length] in L. unfold ParseInt. cbv zeta.
  rewrite (Bool.orb_comm (Ascii.eqb c "+")).
  assert (Q : 2 ^ 63 = 9223372036854775808) by reflexivity.
  assert (K : forall (body : string) (neg : bool),
             (String.length body <= 18)%nat -> body <> "" ->
             match atoi_fast_loop 0 body return NumError + Z with
             | Some n => inr (if neg then - n else n)
             | None => inl {| Num := String c s'; Kind := ErrSyntax |}
             end
             = match ParseUint body with
               | inl k => inl {| Num := String c s'; Kind := k |}
               | inr un =>
                   if (negb neg && (2 ^ 63 <=? un))%bool
                   then inl {| Num := String c s'; Kind := ErrRange |}
                   else if (neg && (2 ^ 63 <? un))%bool
                        then inl {| Num := String c s'; Kind := ErrRange |}
                        else inr (if neg then - un else un)
               end).
  { intros body neg Lb Nb. pose proof (fast_path_ParseUint body Lb Nb) as H.
    destruct (atoi_fast_loop 0 body) as [x|]; [|now rewrite H].
    destruct H as [-> R]. rewrite Q in *.
    destruct (Z.leb_spec 9223372036854775808 x); [lia|].
    destruct (Z.ltb_spec 9223372036854775808 x); [lia|].
    now rewrite !Bool.andb_false_r. }
  destruct (Ascii.eqb c "-") eqn:Eneg; cbn [orb].
  - destruct s' as [|b s'']; [reflexivity|].
    cbn [String.length Nat.ltb Nat.leb andb].
    apply (K (String b s'') true); [cbn [String.length] in *; lia | discriminate].
  - destruct (Ascii.eqb c "+") eqn:Epl; cbn [orb andb].
    + destruct s' as [|b s'']; [reflexivity|].
      cbn [String.length Nat.ltb Nat.leb andb].
      apply (K (String b s'') false); [cbn [String.length] in *; lia | discriminate].
    + apply (K (String c s') false); [cbn [String.length]; lia | discriminate].
Qed.

(** A component without a sign parses exactly when it is one or more digits
    whose number is at most the largest int. *)
Lemma is_int_digits (s : string) :
  s <> "" -> all_in is_digit s = true ->
  is_int s = (decimal s <=? MaxInt64).
Proof.
  intros N A. unfold is_int. rewrite Atoi_ParseInt, (ParseInt_digits s N A).
  destruct (decimal s <=? MaxInt64); reflexivity.
Qed.

End AtoiFacts.

(** * The properties of the formatter *)

Section FormatterProperties.

Lemma find_x_Contains (s : string) :
  find_x s = None <-> Contains s "x" = false.
Proof.
  induction s as [|c s IH]; cbn; [tauto|].
  destruct (Ascii.eqb c "x"); [split; discriminate | exact IH].
Qed.

Lemma ReleaseCandidate_error (v : Version) (e : error) :
  ReleaseCandidate v = Err e ->
  e = BadReleaseCandidate \/ exists n, e = NumErr n.
Proof.
  rewrite ReleaseCandidate_parts.
  destruct (preRelease v =? "")%string; [discriminate|].
  destruct (rc_parts (preRelease v)) as [[l d]|].
  - destruct (ParseInt d) as [n|i]; [|discriminate].
    intros [= <-]. right. now exists n.
  - intros [= <-]. now left.
Qed.

(** C4. PreRelease has no error path (it returns a string) and its result
    depends on the pre-release of the tag and on the number of commits
    only: the pre-release unchanged when Commits is 0, ["dev.<Commits>"]
    when Commits > 0 and the pre-release is empty, and
    ["<preRelease>.dev.<Commits>"] when Commits > 0 and it is not. *)
Theorem PreRelease_cases (v : Version) :
  (Commits v = 0 -> PreRelease v = preRelease v) /\
  (0 < Commits v -> preRelease v = "" ->
   PreRelease v = "dev." ++ FormatInt (Commits v)) /\
  (0 < Commits v -> preRelease v <> "" ->
   PreRelease v = preRelease v ++ ".dev." ++ FormatInt (Commits v)).
Proof.
  unfold PreRelease. repeat split.
  - intros ->. reflexivity.
  - intros H ->. destruct (Z.eqb_spec (Commits v) 0); [lia | reflexivity].
  - intros H N. destruct (Z.eqb_spec (Commits v) 0); [lia|].
    destruct (String.eqb_spec (preRelease v) ""); [congruence | reflexivity].
Qed.

Lemma PreRelease_cases_witness :
  PreRelease {| Prefix := ""; Major := 1; Minor := 0; Patch := 0;
                preRelease := "beta.2"; Commits := 3; Meta := "";
                releaseCandidate := 0 |}
  = "beta.2.dev.3".
Proof.
  apply (proj2 (proj2 (PreRelease_cases
    {| Prefix := ""; Major := 1; Minor := 0; Patch := 0;
       preRelease := "beta.2"; Commits := 3; Meta := "";
       releaseCandidate := 0 |}))).
  - cbn. lia.
  - cbn. discriminate.
Defined.

(** C3, as it holds. For a pattern whose match holds the token z, the
    output of Format is the prefix, the major number, the minor number when
    y is there, then a dot and the patch number, then the rest; the rest is
    empty or starts with ['-'] or ['+'], so the digits printed are the
    patch component. The patch number printed is the result of [patch++]
    on a 64-bit int exactly when Commits > 0 and the pre-release is empty,
    and Patch in every other case. That result is Patch + 1 when Patch is
    below the largest int, and the smallest int when Patch is the largest
    int. *)
Theorem Format_patch_component (v : Version) (format : string) (t : tokens)
        (s : string) :
  first_match format = Some t -> tok_z t = true ->
  Format v format = Ok s ->
  (exists tail,
     s = Prefix v ++ FormatInt (Major v)
           ++ (if tok_y t then "." ++ FormatInt (Minor v) else "")
           ++ "." ++ FormatInt (if ((0 <? Commits v)
                                    && (preRelease v =? "")%string)%bool
                                then wrap64 (Patch v + 1) else Patch v)
           ++ tail
     /\ (tail = "" \/ exists r, tail = String "-" r \/ tail = String "+" r))
  /\ (MinInt64 <= Patch v < MaxInt64 -> wrap64 (Patch v + 1) = Patch v + 1)
  /\ (Patch v = MaxInt64 -> wrap64 (Patch v + 1) = MinInt64).
Proof.
  intros Hm Hz HF.
  split; [|split; [intros H; apply wrap64_small; lia | intros ->; reflexivity]].
  rewrite Format_render, Hm in HF. unfold render, render_front in HF.
  rewrite Hz in HF. fold (patch_shown v).
  set (meta := if tok_m t then with_sep "+" (Meta v) else "") in *.
  assert (Tm : meta = "" \/ exists r, meta = String "-" r \/ meta = String "+" r).
  { unfold meta. destruct (tok_m t); [|now left].
    destruct (Meta v); cbn; [now left | right; eauto]. }
  set (pre := if tok_p t then with_sep "-" (PreRelease v) else "") in *.
  assert (Tp : forall rest,
             (rest = "" \/ exists r, rest = String "-" r \/ rest = String "+" r) ->
             ((pre ++ rest)%string = ""
              \/ exists r, (pre ++ rest)%string = String "-" r
                           \/ (pre ++ rest)%string = String "+" r)).
  { intros rest Hr. unfold pre. destruct (tok_p t); [|exact Hr].
    destruct (PreRelease v); cbn; [exact Hr | right; eauto]. }
  destruct (tok_r t).
  - destruct (ReleaseCandidate v) as [rc|e]; [|discriminate].
    injection HF as <-.
    exists (pre ++ with_sep "-" rc ++ meta)%string. split.
    + repeat (progress (rewrite ?append_assoc; cbn [append])). reflexivity.
    + apply Tp. destruct rc; cbn; [exact Tm | right; eauto].
  - injection HF as <-. exists (pre ++ meta)%string. split.
    + repeat (progress (rewrite ?append_assoc; cbn [append])). reflexivity.
    + apply Tp, Tm.
Qed.

Lemma Format_patch_component_witness :
  (exists tail,
     "1.2.4+fcf2c8f"
     = "" ++ FormatInt 1 ++ ("." ++ FormatInt 2)
          ++ "." ++ FormatInt (wrap64 (3 + 1)) ++ tail
     /\ (tail = "" \/ exists r, tail = String "-" r \/ tail = String "+" r))
  /\ (MinInt64 <= 3 < MaxInt64 -> wrap64 (3 + 1) = 3 + 1)
  /\ (3 = MaxInt64 -> wrap64 (3 + 1) = MinInt64).
Proof.
  exact (Format_patch_component
           {| Prefix := ""; Major := 1; Minor := 2; Patch := 3;
              preRelease := ""; Commits := 3; Meta := "fcf2c8f";
              releaseCandidate := 0 |}
           "x.y.z+m"
           {| tok_y := true; tok_z := true; tok_p := false; tok_r := false;
              tok_m := true |}
           "1.2.4+fcf2c8f" eq_refl eq_refl eq_refl).
Defined.

(** C3, as it is stated, fails: the tag ["1.2.9223372036854775807"] with
    one commit since the tag builds a version without pre-release whose
    patch number is the largest int; the pattern ["x.y.z"] is a pattern of
    the grammar with the token z, and Format prints
    ["1.2.-9223372036854775808"], where Patch + 1 is 9223372036854775808. *)
Lemma Format_patch_overflow :
  let v := {| Prefix := ""; Major := 1; Minor := 2;
              Patch := 9223372036854775807; preRelease := ""; Commits := 1;
              Meta := "abcdef12"; releaseCandidate := 0 |} in
  NewFromHead {| LastTag := "1.2.9223372036854775807";
                 Hash := "abcdef1234567890"; CommitsSinceTag := 1 |} = Built v /\
  grammar_pattern NoPreFormat = true /\
  0 < Commits v /\ preRelease v = "" /\
  Format v NoPreFormat = Ok "1.2.-9223372036854775808" /\
  FormatInt (Patch v + 1) = "9223372036854775808".
Proof. cbv zeta. repeat split. Qed.

(** C10, as it holds. Format returns the invalid-format error exactly when
    the pattern holds no ['x']. On a pattern that holds one it prints the
    tokens of the first match and nothing else: it succeeds when the match
    has no token r or ReleaseCandidate succeeds, and it returns the error
    of ReleaseCandidate when the match has the token r and ReleaseCandidate
    fails. *)
Theorem Format_first_match (v : Version) (format : string) :
  (Format v format = Err (InvalidFormat format)
   <-> Contains format "x" = false) /\
  (Contains format "x" = true ->
   exists t,
     first_match format = Some t /\
     Format v format = render v t /\
     ((tok_r t = false \/ exists rc, ReleaseCandidate v = Ok rc) ->
      exists s, Format v format = Ok s) /\
     (forall e, tok_r t = true -> ReleaseCandidate v = Err e ->
                Format v format = Err e)).
Proof.
  rewrite Format_render. unfold first_match.
  pose proof (find_x_Contains format) as HX.
  destruct (find_x format) as [rest|].
  - assert (C : Contains format "x" = true).
    { destruct (Contains format "x"); [reflexivity|].
      destruct HX as [_ HX]. now specialize (HX eq_refl). }
    split.
    + split; [|rewrite C; discriminate].
      unfold render. destruct (tok_r (fst (scan rest))); [|discriminate].
      destruct (ReleaseCandidate v) as [rc|e] eqn:E; [discriminate|].
      intros [= ->]. destruct (ReleaseCandidate_error v _ E) as [?|[n ?]];
        discriminate.
    + intros _. exists (fst (scan rest)). repeat split.
      * unfold render. intros [->|[rc ->]]; [eauto|].
        destruct (tok_r (fst (scan rest))); eauto.
      * unfold render. intros e -> ->. reflexivity.
  - split.
    + split; [intros _; now apply HX | reflexivity].
    + intros C. destruct HX as [HX _]. rewrite (HX eq_refl) in C. discriminate.
Qed.

Lemma Format_first_match_witness :
  exists t,
    first_match "xsomething" = Some t /\
    Format (zero_version 0) "xsomething" = render (zero_version 0) t /\
    ((tok_r t = false \/ exists rc, ReleaseCandidate (zero_version 0) = Ok rc) ->
     exists s, Format (zero_version 0) "xsomething" = Ok s) /\
    (forall e, tok_r t = true -> ReleaseCandidate (zero_version 0) = Err e ->
               Format (zero_version 0) "xsomething" = Err e).
Proof.
  exact (proj2 (Format_first_match (zero_version 0) "xsomething") eq_refl).
Defined.

(** C10, as it is stated, fails: the pattern ["x-r"] holds an ['x'], and on
    a version whose pre-release is ["beta"] Format does not succeed. *)
Lemma Format_x_r_fails :
  let v := set_preRelease "beta" (zero_version 0) in
  Contains "x-r" "x" = true /\
  Format v "x-r" = Err BadReleaseCandidate /\
  ~ (exists s, Format v "x-r" = Ok s).
Proof.
  cbv zeta. split; [reflexivity|]. split; [reflexivity|].
  intros [s H]. discriminate H.
Qed.

(** C1 is not what the code does: ["z.x"] is not a pattern of the grammar,
    and Format accepts it and prints the major number alone. *)
Theorem Format_out_of_order_accepted (v : Version) :
  grammar_pattern "z.x" = false /\
  Format v "z.x" = Ok (Prefix v ++ FormatInt (Major v)).
Proof.
  split; [reflexivity|].
  rewrite Format_render.
  change (first_match "z.x")
    with (Some {| tok_y := false; tok_z := false; tok_p := false;
                  tok_r := false; tok_m := false |}).
  unfold render, render_front. cbn [tok_y tok_z tok_p tok_r tok_m].
  now rewrite !append_nil_r.
Qed.

(** The six predefined patterns are patterns of the grammar. *)
Lemma predefined_patterns_grammar :
  forallb grammar_pattern
    [FullFormat; NoMetaFormat; NoPreFormat; NoPatchFormat; NoMinorFormat;
     ReleaseCandidateFormat] = true.
Proof. reflexivity. Qed.

(** The patterns of the grammar are accepted. *)
Lemma grammar_pattern_accepted (v : Version) (format : string) :
  grammar_pattern format = true -> Format v format <> Err (InvalidFormat format).
Proof.
  intros G. rewrite Format_render.
  destruct format as [|c rest]; [discriminate|].
  unfold first_match. cbn [find_x]. cbn [grammar_pattern] in G.
  destruct (Ascii.eqb c "x"); [|discriminate].
  unfold render. destruct (tok_r _); [|discriminate].
  destruct (ReleaseCandidate v) as [rc|e] eqn:E; [discriminate|].
  destruct (ReleaseCandidate_error v e E) as [->|[n ->]]; discriminate.
Qed.

(** C5, as it holds. ReleaseCandidate returns ["rc.1"] when the pre-release
    is empty. When it is not, ReleaseCandidate fails exactly when the
    pre-release is not lowercase letters, a dot and digits, or the number
    the digits denote is above the largest int64. When it has that shape
    and the number n fits, the result is the letters, a dot and n, or n + 1
    (the [i++] of the code, on an int64) when Commits > 0. *)
Theorem ReleaseCandidate_cases (v : Version) :
  (preRelease v = "" -> ReleaseCandidate v = Ok "rc.1") /\
  (preRelease v <> "" ->
   ((exists e, ReleaseCandidate v = Err e)
    <-> (~ matches_rc (preRelease v)
         \/ exists label digits,
              rc_shape (preRelease v) label digits /\ MaxInt64 < decimal digits))) /\
  (forall label digits,
     rc_shape (preRelease v) label digits -> decimal digits <= MaxInt64 ->
     ReleaseCandidate v
     = Ok (label ++ "."
             ++ FormatInt (if 0 <? Commits v then wrap64 (decimal digits + 1)
                           else decimal digits))).
Proof.
  rewrite ReleaseCandidate_parts. repeat split.
  - intros ->. reflexivity.
  - destruct (String.eqb_spec (preRelease v) ""); [congruence|].
    destruct (rc_parts (preRelease v)) as [[l d]|] eqn:P.
    + apply rc_parts_shape in P. pose proof P as (_ & _ & _ & Nd & Ad).
      rewrite (ParseInt_digits d Nd Ad).
      destruct (Z.leb_spec (decimal d) MaxInt64); [intros [e E]; discriminate|].
      intros _. right. now exists l, d.
    + intros _. left. intros (l & d & S). apply rc_parts_shape in S. congruence.
  - destruct (String.eqb_spec (preRelease v) ""); [congruence|].
    intros [NM|(l & d & S & G)].
    + destruct (rc_parts (preRelease v)) as [[l d]|] eqn:P; [|eauto].
      apply rc_parts_shape in P. elim NM. now exists l, d.
    + pose proof S as (_ & _ & _ & Nd & Ad).
      apply rc_parts_shape in S. rewrite S, (ParseInt_digits d Nd Ad).
      destruct (Z.leb_spec (decimal d) MaxInt64); [lia | eauto].
  - intros l d S L. pose proof S as (E & Nl & _ & Nd & Ad).
    destruct (String.eqb_spec (preRelease v) "") as [Z|_].
    { rewrite Z in E. destruct l; [congruence | discriminate]. }
    apply rc_parts_shape in S. rewrite S, (ParseInt_digits d Nd Ad).
    destruct (Z.leb_spec (decimal d) MaxInt64); [reflexivity | lia].
Qed.

Lemma ReleaseCandidate_cases_witness :
  ReleaseCandidate (set_preRelease "rc.1" (zero_version 1)) = Ok "rc.2".
Proof.
  apply (proj2 (proj2 (ReleaseCandidate_cases
                         (set_preRelease "rc.1" (zero_version 1))))
           "rc" "1").
  - repeat split; try reflexivity; discriminate.
  - cbv. discriminate.
Defined.

(** C5, as it is stated, fails: ["rc.9223372036854775808"] is lowercase
    letters, a dot and digits, and ReleaseCandidate returns the range error
    of ParseInt. *)
Lemma ReleaseCandidate_range_error :
  let v := set_preRelease "rc.9223372036854775808" (zero_version 0) in
  matches_rc (preRelease v) /\
  ReleaseCandidate v
  = Err (NumErr {| Num := "9223372036854775808"; Kind := ErrRange |}).
Proof.
  cbv zeta. split; [|reflexivity].
  exists "rc", "9223372036854775808".
  repeat split; try reflexivity; discriminate.
Qed.

End FormatterProperties.

(** * The properties of the version model *)

Section VersionModelProperties.

(** The metadata step of [NewFromHead], as [NewFromHead_steps] writes it. *)
Lemma meta_step_in_bounds (head : RepoHead) :
  hash_in_bounds head ->
  exists meta,
    (if Contains (tag_body head) "+"
     then Some (before "+" (after "+" (tag_body head)))
     else if 0 <? CommitsSinceTag head then slice_to (Hash head) 8
          else Some "") = Some meta.
Proof.
  intros H. unfold hash_in_bounds in H.
  destruct (Contains (tag_body head) "+"); [eauto|].
  destruct (Z.ltb_spec 0 (CommitsSinceTag head)) as [L|L]; [|eauto].
  specialize (H eq_refl L). unfold slice_to.
  destruct (Nat.leb_spec 8 (String.length (Hash head))); [eauto | lia].
Qed.

(** A failure of [Atoi] carries the string it was given. *)
Lemma Atoi_error_Num (s : string) (n : NumError) : Atoi s = inl n -> Num n = s.
Proof.
  unfold Atoi, ParseInt.
  destruct ((0 <? String.length s)%nat && (String.length s <? 19)%nat)%bool.
  - destruct s as [|c s']; [intros [= <-]; reflexivity|].
    destruct ((Ascii.eqb c "-" || Ascii.eqb c "+")%bool
              && (String.length _ <? 1)%nat)%bool;
      [intros [= <-]; reflexivity|].
    destruct (atoi_fast_loop 0 _); [discriminate | intros [= <-]; reflexivity].
  - destruct s as [|c s']; [intros [= <-]; reflexivity|].
    destruct (ParseUint _); [intros [= <-]; reflexivity|].
    destruct (negb (Ascii.eqb c "-") && _)%bool; [intros [= <-]; reflexivity|].
    destruct (Ascii.eqb c "-" && _)%bool; [intros [= <-]; reflexivity|].
    discriminate.
Qed.

(** The tag with several separators: the pieces behind the second ['+'] and
    behind the second ['-'] are dropped. *)
Lemma NewFromHead_segments (head : RepoHead) (v : Version) :
  NewFromHead head = Built v ->
  (Contains (tag_body head) "+" = true ->
   Meta v = before "+" (after "+" (tag_body head))) /\
  (Contains (before "+" (tag_body head)) "-" = true ->
   preRelease v = before "-" (after "-" (before "+" (tag_body head)))).
Proof.
  rewrite NewFromHead_steps. cbv zeta.
  destruct (Contains (tag_body head) "+") eqn:CP.
  - destruct (Contains (before "+" (tag_body head)) "-") eqn:CM;
      (destruct (before "-" (before "+" (tag_body head)) =? "")%string;
       [ intros [= <-]; split; [reflexivity | easy] | ]);
      (destruct (Split _ ".") as [|a [|b [|c [|d rest]]]]; try discriminate);
      destruct (Atoi a); try discriminate;
      destruct (Atoi b); try discriminate;
      destruct (Atoi c); try discriminate;
      intros [= <-]; split; easy.
  - intros H. split; [discriminate|].
    destruct (if 0 <? CommitsSinceTag head then slice_to (Hash head) 8
              else Some ""); [|discriminate].
    destruct (Contains (before "+" (tag_body head)) "-") eqn:CM;
      [|discriminate].
    intros _. revert H.
    destruct (before "-" (before "+" (tag_body head)) =? "")%string;
      [ intros [= <-]; reflexivity | ].
    destruct (Split _ ".") as [|a [|b [|c [|d rest]]]]; try discriminate.
    destruct (Atoi a); try discriminate.
    destruct (Atoi b); try discriminate.
    destruct (Atoi c); try discriminate.
    intros [= <-]. reflexivity.
Qed.

(** C2 is not what the code does: [strings.Split] cuts at every separator
    and the code keeps the piece with index 1 only. For the tag
    ["1.0.0-alpha-1"] the pre-release is ["alpha"], not ["alpha-1"]; for the
    tag ["1.0.0+a+b"] the metadata is ["a"], not ["a+b"]. *)
Theorem NewFromHead_second_separator :
  NewFromHead {| LastTag := "1.0.0-alpha-1"; Hash := "abcdef1234567890";
                 CommitsSinceTag := 0 |}
  = Built {| Prefix := ""; Major := 1; Minor := 0; Patch := 0;
             preRelease := "alpha"; Commits := 0; Meta := "";
             releaseCandidate := 0 |}
  /\
  NewFromHead {| LastTag := "1.0.0+a+b"; Hash := "abcdef1234567890";
                 CommitsSinceTag := 0 |}
  = Built {| Prefix := ""; Major := 1; Minor := 0; Patch := 0;
             preRelease := ""; Commits := 0; Meta := "a";
             releaseCandidate := 0 |}.
Proof. split; reflexivity. Qed.

(** C8. For the tag ["1.0.0"], the hash ["abcdef1234567890"] and 5 commits
    since the tag, NewFromHead succeeds, the metadata is ["abcdef12"], and
    the full format prints ["1.0.1-dev.5+abcdef12"]. *)
Theorem NewFromHead_Format_example :
  exists v,
    NewFromHead {| LastTag := "1.0.0"; Hash := "abcdef1234567890";
                   CommitsSinceTag := 5 |} = Built v /\
    Meta v = "abcdef12" /\
    Meta v = take 8 "abcdef1234567890" /\
    Format v FullFormat = Ok "1.0.1-dev.5+abcdef12".
Proof. eexists. repeat split; reflexivity. Qed.

(** C9, as it holds. When the tag body has no ['+'] and there are commits
    since the tag: with a hash of 8 bytes or more NewFromHead does not
    panic and the metadata of the version it builds is the first 8 bytes
    of the hash; with a shorter hash the slice is out of bounds and
    NewFromHead panics. *)
Theorem NewFromHead_hash_slice (head : RepoHead) :
  Contains (tag_body head) "+" = false -> 0 < CommitsSinceTag head ->
  ((8 <= String.length (Hash head))%nat ->
   NewFromHead head <> Panic /\
   forall v, NewFromHead head = Built v -> Meta v = take 8 (Hash head)) /\
  ((String.length (Hash head) < 8)%nat -> NewFromHead head = Panic).
Proof.
  intros CP L. apply Z.ltb_lt in L.
  rewrite NewFromHead_steps. cbv zeta. rewrite CP, L. unfold slice_to.
  split; intros H.
  - destruct (Nat.leb_spec 8 (String.length (Hash head))); [|lia].
    destruct (before "-" (before "+" (tag_body head)) =? "")%string.
    { split; [discriminate | intros v [= <-]; reflexivity]. }
    destruct (Split _ ".") as [|a [|b [|c [|d rest]]]];
      try (split; [discriminate | intros v; discriminate]).
    destruct (Atoi a); [split; [discriminate | intros v; discriminate]|].
    destruct (Atoi b); [split; [discriminate | intros v; discriminate]|].
    destruct (Atoi c); [split; [discriminate | intros v; discriminate]|].
    split; [discriminate | intros v [= <-]; reflexivity].
  - destruct (Nat.leb_spec 8 (String.length (Hash head))); [lia | reflexivity].
Qed.

Lemma NewFromHead_hash_slice_witness :
  NewFromHead {| LastTag := "v1.0.0"; Hash := "abc"; CommitsSinceTag := 2 |}
  = Panic.
Proof.
  apply (proj2 (NewFromHead_hash_slice
                  {| LastTag := "v1.0.0"; Hash := "abc"; CommitsSinceTag := 2 |}
                  eq_refl eq_refl)).
  cbn. lia.
Defined.

(** C9, as it is stated, fails: the tag body ["1.0.0"] has no ['+'], there
    is one commit since the tag, the hash has three bytes, and NewFromHead
    does not return. *)
Lemma NewFromHead_short_hash_panics :
  let head := {| LastTag := "1.0.0"; Hash := "abc"; CommitsSinceTag := 1 |} in
  Contains (tag_body head) "+" = false /\
  0 < CommitsSinceTag head /\
  NewFromHead head = Panic.
Proof. cbv zeta. repeat split. Qed.

(** C6, as it holds. When the slice of the hash is in bounds and the
    numeric core is not empty and is not three dot-separated components
    that each parse as an integer, NewFromHead fails with an error of a
    malformed tag: the error of the three components, with the core, when
    the core does not have three components, and otherwise the error of
    the first component (major, minor, patch) that does not parse, with the
    text of that component. In particular it fails on the tag ["v1.2"]. *)
Theorem NewFromHead_malformed_core (head : RepoHead) :
  hash_in_bounds head ->
  (numeric_core head <> "" -> three_ints (numeric_core head) = false ->
   exists e,
     NewFromHead head = Failed e /\ invalid_tag_format e = true /\
     match Split (numeric_core head) "." with
     | [a; b; c] =>
         (exists n, Atoi a = inl n /\ Num n = a /\ e = TagMajor n)
         \/ (is_int a = true /\
             exists n, Atoi b = inl n /\ Num n = b /\ e = TagMinor n)
         \/ (is_int a = true /\ is_int b = true /\
             exists n, Atoi c = inl n /\ Num n = c /\ e = TagPatch n)
     | _ => e = TagComponents (numeric_core head)
     end) /\
  (LastTag head = "v1.2" -> NewFromHead head = Failed (TagComponents "1.2")).
Proof.
  intros HB. destruct (meta_step_in_bounds head HB) as [meta HM]. split.
  - intros NE T3. rewrite NewFromHead_steps. cbv zeta. rewrite HM.
    fold (numeric_core head).
    destruct (String.eqb_spec (numeric_core head) ""); [congruence|].
    unfold three_ints, is_int in *.
    destruct (Split (numeric_core head) ".") as [|a [|b [|c [|d rest]]]];
      try (eexists; repeat split; reflexivity).
    destruct (Atoi a) as [na|x] eqn:Ea.
    { exists (TagMajor na). repeat split. left. exists na.
      repeat split. now apply Atoi_error_Num. }
    destruct (Atoi b) as [nb|y] eqn:Eb.
    { exists (TagMinor nb). repeat split. right; left. split; [reflexivity|].
      exists nb. repeat split. now apply Atoi_error_Num. }
    destruct (Atoi c) as [nc|z] eqn:Ec; [|discriminate].
    exists (TagPatch nc). repeat split. right; right.
    repeat split. exists nc. repeat split. now apply Atoi_error_Num.
  - intros E. rewrite NewFromHead_steps. cbv zeta. rewrite HM.
    unfold tag_body. rewrite E. reflexivity.
Qed.

Lemma NewFromHead_malformed_core_witness :
  NewFromHead {| LastTag := "v1.2"; Hash := "abcdef1234567890";
                 CommitsSinceTag := 3 |}
  = Failed (TagComponents "1.2").
Proof.
  apply (proj2 (NewFromHead_malformed_core
                  {| LastTag := "v1.2"; Hash := "abcdef1234567890";
                     CommitsSinceTag := 3 |}
                  (fun _ _ => ltac:(cbn; lia)))).
  reflexivity.
Defined.

(** C6, as it is stated, fails: for the tag ["v1.2"], one commit since the
    tag and an empty hash, the numeric core ["1.2"] is not empty and is not
    three components, and NewFromHead panics at the slice of the hash: it
    returns no error. *)
Lemma NewFromHead_malformed_core_panics :
  let head := {| LastTag := "v1.2"; Hash := ""; CommitsSinceTag := 1 |} in
  numeric_core head = "1.2" /\
  three_ints (numeric_core head) = false /\
  NewFromHead head = Panic /\
  ~ (exists e, NewFromHead head = Failed e).
Proof.
  cbv zeta. repeat split. intros [e H]. discriminate H.
Qed.

(** C7, as it holds. When the slice of the hash is in bounds and the
    numeric core is empty, NewFromHead succeeds with Major = Minor = Patch
    = 0; in particular, when the tag is empty it succeeds with Major =
    Minor = Patch = 0 and an empty prefix. *)
Theorem NewFromHead_empty_core (head : RepoHead) :
  hash_in_bounds head ->
  (numeric_core head = "" ->
   exists v,
     NewFromHead head = Built v /\ Major v = 0 /\ Minor v = 0 /\ Patch v = 0)
  /\
  (LastTag head = "" ->
   exists v,
     NewFromHead head = Built v /\ Major v = 0 /\ Minor v = 0 /\ Patch v = 0
     /\ Prefix v = "").
Proof.
  intros HB. destruct (meta_step_in_bounds head HB) as [meta HM]. split.
  - intros E. rewrite NewFromHead_steps. cbv zeta. rewrite HM.
    fold (numeric_core head). rewrite E. cbn [String.eqb].
    eexists. repeat split.
  - intros E. rewrite NewFromHead_steps. cbv zeta. rewrite HM.
    unfold tag_body. rewrite E. cbn.
    eexists. repeat split.
Qed.

Lemma NewFromHead_empty_core_witness :
  exists v,
    NewFromHead {| LastTag := ""; Hash := "abcdef1234567890";
                   CommitsSinceTag := 4 |} = Built v
    /\ Major v = 0 /\ Minor v = 0 /\ Patch v = 0 /\ Prefix v = "".
Proof.
  apply (proj2 (NewFromHead_empty_core
                  {| LastTag := ""; Hash := "abcdef1234567890";
                     CommitsSinceTag := 4 |}
                  (fun _ _ => ltac:(cbn; lia)))).
  reflexivity.
Defined.

(** C7, as it is stated, fails: for an empty tag, one commit since the tag
    and an empty hash, the numeric core is empty and NewFromHead panics at
    the slice of the hash: it builds no version. *)
Lemma NewFromHead_empty_core_panics :
  let head := {| LastTag := ""; Hash := ""; CommitsSinceTag := 1 |} in
  numeric_core head = "" /\
  NewFromHead head = Panic /\
  ~ (exists v, NewFromHead head = Built v).
Proof.
  cbv zeta. repeat split. intros [v H]. discriminate H.
Qed.

End VersionModelProperties.

(** * Printing and reading numbers *)

Section NumberFacts.

Lemma string_of_uint_digits (d : Decimal.uint) :
  all_in is_digit (NilEmpty.string_of_uint d) = true.
Proof. induction d; cbn [NilEmpty.string_of_uint all_in]; try rewrite IHd; reflexivity. Qed.

Lemma decimal_from_of_uint_acc (d : Decimal.uint) (acc : positive) :
  decimal_from (Z.pos acc) (NilEmpty.string_of_uint d)
  = Z.pos (Pos.of_uint_acc d acc).
Proof.
  revert acc; induction d; intros acc;
    cbn [NilEmpty.string_of_uint decimal_from Pos.of_uint_acc];
    [reflexivity | ..];
    rewrite <- IHd; f_equal;
    match goal with
    | |- context [digit_val ?c] =>
        let x := eval vm_compute in (digit_val c) in
        change (digit_val c) with x
    end; lia.
Qed.

Lemma decimal_of_uint (d : Decimal.uint) :
  decimal (NilEmpty.string_of_uint d) = Z.of_N (Pos.of_uint d).
Proof.
  unfold decimal.
  induction d; cbn [NilEmpty.string_of_uint decimal_from Pos.of_uint];
    [reflexivity | exact IHd | ..];
    cbn [Z.of_N]; rewrite <- decimal_from_of_uint_acc; reflexivity.
Qed.

(** A number that is not negative is printed as digits that denote it. *)
Lemma FormatInt_digits (n : Z) :
  0 <= n -> all_in is_digit (FormatInt n) = true /\ decimal (FormatInt n) = n.
Proof.
  intros H. destruct n as [|p|p]; [split; reflexivity | | lia].
  unfold FormatInt. cbn [Z.to_int NilEmpty.string_of_int]. split.
  - apply string_of_uint_digits.
  - rewrite decimal_of_uint, DecimalPos.Unsigned.of_to. reflexivity.
Qed.

Lemma FormatInt_int_digits (n : Z) : 0 <= n <= MaxInt64 -> int_digits (FormatInt n).
Proof.
  intros H. destruct (FormatInt_digits n) as [A D]; [lia|].
  repeat split; [apply FormatInt_nonempty | exact A | rewrite D; lia].
Qed.

(** [Atoi] reads digits as the number they denote. *)
Lemma Atoi_int_digits (s : string) : int_digits s -> Atoi s = inr (decimal s).
Proof.
  intros (N & A & L). rewrite Atoi_ParseInt, (ParseInt_digits s N A).
  destruct (Z.leb_spec (decimal s) MaxInt64); [reflexivity | lia].
Qed.

Lemma parse_uint_loop_nonneg (s : string) (n u : Z) :
  0 <= n -> parse_uint_loop n s = inr u -> 0 <= u.
Proof.
  revert n; induction s as [|c s IH]; intros n Hn; cbn [parse_uint_loop].
  - intros [= <-]. exact Hn.
  - destruct (is_digit c) eqn:Hc; [|discriminate].
    destruct (MaxUint64 / 10 + 1 <=? n); [discriminate|].
    destruct (MaxUint64 <? n * 10 + digit_val c); [discriminate|].
    apply IH. pose proof (digit_val_range c Hc). lia.
Qed.

(** What [Atoi] returns is an [int], and it is not negative unless the
    input starts with a minus sign. *)
Lemma Atoi_range (s : string) (n : Z) :
  Atoi s = inr n ->
  MinInt64 <= n <= MaxInt64 /\ (Contains s "-" = false -> 0 <= n).
Proof.
  rewrite Atoi_ParseInt. unfold ParseInt.
  destruct s as [|c s']; [discriminate|].
  assert (Q : 2 ^ 63 = 9223372036854775808) by reflexivity.
  assert (Q1 : MinInt64 = - 9223372036854775808) by reflexivity.
  assert (Q2 : MaxInt64 = 9223372036854775807) by reflexivity.
  cbv zeta. rewrite Q.
  destruct (ParseUint _) as [k|un] eqn:PU; [discriminate|].
  assert (U : 0 <= un).
  { unfold ParseUint in PU.
    destruct (if (Ascii.eqb c "+" || Ascii.eqb c "-")%bool then s' else String c s');
      [discriminate|].
    eapply parse_uint_loop_nonneg; [|exact PU]. lia. }
  cbn [Contains].
  destruct (Ascii.eqb c "-") eqn:Eneg; cbn [negb andb].
  - destruct (Z.ltb_spec 9223372036854775808 un); [discriminate|].
    intros [= <-]. split; [lia | discriminate].
  - destruct (Z.leb_spec 9223372036854775808 un); [discriminate|].
    intros [= <-]. split; [lia | intros _; exact U].
Qed.

End NumberFacts.

(** * More on the formatter *)

Section FormatterExtras.

(** X1. String never takes its error branch: it is the full format of the
    version, that is the prefix, the three numbers joined by dots (the
    patch number as Format shows it), the pre-release behind ['-'] and the
    metadata behind ['+'] when they are not empty; it is never the empty
    string. *)
Theorem Version_String_full (v : Version) :
  Format v FullFormat = Ok (Version_String v) /\
  Version_String v
  = Prefix v ++ FormatInt (Major v) ++ "." ++ FormatInt (Minor v) ++ "."
      ++ FormatInt (patch_shown v)
      ++ with_sep "-" (PreRelease v) ++ with_sep "+" (Meta v) /\
  Version_String v <> "".
Proof.
  unfold Version_String. rewrite Format_render.
  change (first_match FullFormat)
    with (Some {| tok_y := true; tok_z := true; tok_p := true;
                  tok_r := false; tok_m := true |}).
  unfold render, render_front. cbn [tok_y tok_z tok_p tok_r tok_m].
  repeat split.
  - repeat (progress (rewrite ?append_assoc; cbn [append])). reflexivity.
  - intros E. apply (f_equal String.length) in E. revert E.
    rewrite !append_assoc.
    pose proof (FormatInt_nonempty (Major v)) as N.
    destruct (FormatInt (Major v)); [congruence|].
    destruct (Prefix v); discriminate.
Qed.



(** The result of [ReleaseCandidate] on a pre-release of the right shape
    whose number fits an int64. *)
Lemma ReleaseCandidate_shape (v : Version) (label digits : string) :
  rc_shape (preRelease v) label digits -> decimal digits <= MaxInt64 ->
  ReleaseCandidate v
  = Ok (label ++ "."
          ++ FormatInt (if 0 <? Commits v then wrap64 (decimal digits + 1)
                        else decimal digits)).
Proof.
  intros S L. rewrite ReleaseCandidate_parts.
  pose proof S as (E & Nl & _ & Nd & Ad).
  destruct (String.eqb_spec (preRelease v) "") as [Z|_].
  { rewrite Z in E. destruct label; [congruence | discriminate]. }
  apply rc_parts_shape in S. rewrite S, (ParseInt_digits digits Nd Ad).
  destruct (Z.leb_spec (decimal digits) MaxInt64); [reflexivity | lia].
Qed.

(** X3. What ReleaseCandidate returns is a release candidate again: unless
    the increment overflows, the result has the shape letters, dot, digits,
    and a version tagged with it, without commits since the tag, has it as
    its release candidate unchanged. *)
Theorem ReleaseCandidate_stable (v : Version) (rc : string) :
  ReleaseCandidate v = Ok rc ->
  (forall label digits,
     rc_shape (preRelease v) label digits -> 0 < Commits v ->
     decimal digits < MaxInt64) ->
  matches_rc rc /\
  forall v', preRelease v' = rc -> Commits v' <= 0 ->
             ReleaseCandidate v' = Ok rc.
Proof.
  intros R NoOv.
  assert (K : forall label n, label <> "" -> all_in is_lower label = true ->
                0 <= n <= MaxInt64 ->
                matches_rc (label ++ "." ++ FormatInt n) /\
                forall v', preRelease v' = label ++ "." ++ FormatInt n ->
                           Commits v' <= 0 ->
                           ReleaseCandidate v' = Ok (label ++ "." ++ FormatInt n)).
  { intros label n Nl Al Hn.
    destruct (FormatInt_digits n ltac:(lia)) as [A D].
    assert (S : rc_shape (label ++ "." ++ FormatInt n) label (FormatInt n)).
    { repeat split; try assumption. apply FormatInt_nonempty. }
    split; [now exists label, (FormatInt n)|].
    intros v' E C. rewrite <- E in S.
    rewrite (ReleaseCandidate_shape v' _ _ S) by (rewrite D; lia).
    destruct (Z.ltb_spec 0 (Commits v')); [lia|]. now rewrite D. }
  rewrite ReleaseCandidate_parts in R.
  destruct (String.eqb_spec (preRelease v) "") as [E|N].
  - injection R as <-.
    apply (K "rc" 1); [discriminate | reflexivity | cbv; split; discriminate].
  - destruct (rc_parts (preRelease v)) as [[l d]|] eqn:P; [|discriminate].
    apply rc_parts_shape in P. pose proof P as (_ & Nl & Al & Nd & Ad).
    rewrite (ParseInt_digits d Nd Ad) in R.
    destruct (Z.leb_spec (decimal d) MaxInt64) as [L|L]; [|discriminate].
    injection R as <-.
    pose proof (decimal_from_ge d 0 Ad ltac:(lia)) as G. fold (decimal d) in G.
    assert (Q1 : MinInt64 = - 9223372036854775808) by reflexivity.
    assert (Q2 : MaxInt64 = 9223372036854775807) by reflexivity.
    destruct (Z.ltb_spec 0 (Commits v)) as [C|C].
    + specialize (NoOv l d P C).
      rewrite wrap64_small by lia. apply K; [assumption .. | lia].
    + apply K; [assumption .. | lia].
Qed.

Lemma ReleaseCandidate_stable_witness :
  matches_rc "beta.8" /\
  forall v', preRelease v' = "beta.8" -> Commits v' <= 0 ->
             ReleaseCandidate v' = Ok "beta.8".
Proof.
  apply (ReleaseCandidate_stable (set_preRelease "beta.007" (zero_version 2))
           "beta.8" eq_refl).
  intros label digits S _.
  apply rc_parts_shape in S. injection S as <- <-. cbv. reflexivity.
Defined.

(** X4. At the largest int64 the increment of ReleaseCandidate wraps
    around: for a pre-release [<label>.9223372036854775807] and commits
    since the tag the result is [<label>.-9223372036854775808], which is
    not of the release-candidate shape any more. *)
Theorem ReleaseCandidate_wraps (v : Version) (label : string) :
  label <> "" -> all_in is_lower label = true ->
  preRelease v = label ++ ".9223372036854775807" -> 0 < Commits v ->
  ReleaseCandidate v = Ok (label ++ ".-9223372036854775808") /\
  ~ matches_rc (label ++ ".-9223372036854775808").
Proof.
  intros Nl Al E C. split.
  - assert (S : rc_shape (preRelease v) label "9223372036854775807").
    { rewrite E. repeat split; try assumption; discriminate. }
    rewrite (ReleaseCandidate_shape v _ _ S) by (cbv; discriminate).
    apply Z.ltb_lt in C. rewrite C. reflexivity.
  - intros (l & d & S). apply rc_parts_shape in S.
    assert (S' : rc_parts (label ++ ".-9223372036854775808") = None).
    { unfold rc_parts.
      assert (S0 : span is_lower ".-9223372036854775808" = 0%nat) by reflexivity.
      rewrite (span_all_in _ _ _ Al S0), drop_append. cbn [append].
      change (0 <? span is_digit "-9223372036854775808")%nat with false.
      now rewrite Bool.andb_false_r. }
    congruence.
Qed.

Lemma ReleaseCandidate_wraps_witness :
  ReleaseCandidate (set_preRelease "rc.9223372036854775807" (zero_version 1))
  = Ok "rc.-9223372036854775808" /\
  ~ matches_rc "rc.-9223372036854775808".
Proof.
  apply (ReleaseCandidate_wraps
           (set_preRelease "rc.9223372036854775807" (zero_version 1)) "rc").
  - discriminate.
  - reflexivity.
  - reflexivity.
  - reflexivity.
Defined.

End FormatterExtras.

(** * Cutting strings at separators *)

Section SeparatorFacts.

Lemma Contains_append (a b : string) (c : ascii) :
  Contains (a ++ b) c = (Contains a c || Contains b c)%bool.
Proof.
  induction a as [|x a IH]; cbn [append Contains]; [reflexivity|].
  destruct (Ascii.eqb x c); [reflexivity | exact IH].
Qed.

Lemma all_in_no_sep (p : ascii -> bool) (s : string) (c : ascii) :
  all_in p s = true -> p c = false -> Contains s c = false.
Proof.
  intros A Hc. induction s as [|x s IH]; cbn in *; [reflexivity|].
  apply Bool.andb_true_iff in A as [Hx A].
  destruct (Ascii.eqb_spec x c) as [->|_]; [congruence | now apply IH].
Qed.

Lemma Contains_with_sep (sep c : ascii) (s : string) :
  Contains (with_sep sep s) c
  = (negb (s =? "")%string && (Ascii.eqb sep c || Contains s c))%bool.
Proof. destruct s; reflexivity. Qed.

Lemma before_append (sep : ascii) (l r : string) :
  Contains l sep = false -> before sep (l ++ String sep r) = l.
Proof.
  induction l as [|x l IH]; cbn [append before Contains].
  - now rewrite Ascii.eqb_refl.
  - destruct (Ascii.eqb x sep); [discriminate|]. intros H. now rewrite IH.
Qed.

Lemma after_append (sep : ascii) (l r : string) :
  Contains l sep = false -> after sep (l ++ String sep r) = r.
Proof.
  induction l as [|x l IH]; cbn [append after Contains].
  - now rewrite Ascii.eqb_refl.
  - destruct (Ascii.eqb x sep); [discriminate|]. exact IH.
Qed.

Lemma Split_append (sep : ascii) (l r : string) :
  Contains l sep = false ->
  Split (l ++ String sep r) sep = l :: Split r sep.
Proof.
  intros H. rewrite Split_before_after, before_append, after_append by exact H.
  rewrite Contains_append. cbn [Contains]. rewrite Ascii.eqb_refl.
  now rewrite Bool.orb_true_r.
Qed.

(** A byte that is not in a string is in none of its pieces. *)
Lemma Split_pieces_free (sep c : ascii) (s : string) :
  Contains s c = false ->
  forall p, In p (Split s sep) -> Contains p c = false.
Proof.
  induction s as [|x s IH]; cbn [Split Contains].
  - intros _ p [<-|[]]. reflexivity.
  - destruct (Ascii.eqb x c) eqn:E; [discriminate|]. intros H p.
    destruct (Ascii.eqb x sep).
    + intros [<-|I]; [reflexivity | now apply IH].
    + specialize (IH H). destruct (Split s sep) as [|q qs].
      * intros [<-|[]]. cbn. now rewrite E.
      * intros [<-|I].
        -- cbn. rewrite E. apply IH. now left.
        -- apply IH. now right.
Qed.

End SeparatorFacts.

(** * More on the version model *)

Section VersionModelExtras.

(** When the metadata step succeeds, [NewFromHead] returns. *)
Lemma NewFromHead_returns (head : RepoHead) (meta : string) :
  (if Contains (tag_body head) "+"
   then Some (before "+" (after "+" (tag_body head)))
   else if 0 <? CommitsSinceTag head then slice_to (Hash head) 8
        else Some "") = Some meta ->
  NewFromHead head <> Panic.
Proof.
  intros HM. rewrite NewFromHead_steps. cbv zeta. rewrite HM.
  destruct (before "-" (before "+" (tag_body head)) =? "")%string;
    [discriminate|].
  destruct (Split _ ".") as [|a [|b [|c [|d rest]]]]; try discriminate.
  destruct (Atoi a); [discriminate|].
  destruct (Atoi b); [discriminate|].
  destruct (Atoi c); discriminate.
Qed.

(** X5. NewFromHead panics in two cases only: the pointer it receives is
    nil, or the tag body has no ['+'], there are commits since the tag and
    the hash has fewer than 8 bytes. The index expressions [parts[0]],
    [parts[1]] and [parts[2]] are never out of range. *)
Theorem NewFromHead_panics_iff (ptr : option RepoHead) :
  NewFromHead_ptr ptr = Panic <->
  ptr = None \/
  exists head,
    ptr = Some head /\
    Contains (tag_body head) "+" = false /\ 0 < CommitsSinceTag head /\
    (String.length (Hash head) < 8)%nat.
Proof.
  destruct ptr as [head|]; cbn [NewFromHead_ptr].
  2:{ split; [now left | reflexivity]. }
  split.
  - intros P. right. exists head. split; [reflexivity|].
    destruct (Contains (tag_body head) "+") eqn:CP.
    { elim (NewFromHead_returns head _ ltac:(rewrite CP; reflexivity) P). }
    destruct (Z.ltb_spec 0 (CommitsSinceTag head)) as [L|L].
    2:{ apply Z.ltb_ge in L.
        elim (NewFromHead_returns head "" ltac:(rewrite CP, L; reflexivity) P). }
    destruct (Nat.leb_spec 8 (String.length (Hash head))) as [B|B].
    2:{ repeat split; [exact L | exact B]. }
    apply Z.ltb_lt in L. apply Nat.leb_le in B.
    elim (NewFromHead_returns head (take 8 (Hash head))
            ltac:(rewrite CP, L; unfold slice_to; rewrite B; reflexivity) P).
  - intros [N|(h & [= <-] & CP & L & B)]; [discriminate|].
    apply Z.ltb_lt in L.
    rewrite NewFromHead_steps. cbv zeta. rewrite CP, L. unfold slice_to.
    destruct (Nat.leb_spec 8 (String.length (Hash head))); [lia | reflexivity].
Qed.

(** X6. The hash is read only when the tag has no metadata and there are
    commits since the tag: with a ['+'] in the tag body, or without commits
    since the tag, NewFromHead returns and its result is the same for every
    hash. *)
Theorem NewFromHead_hash_unused (head : RepoHead) (hash : string) :
  Contains (tag_body head) "+" = true \/ CommitsSinceTag head <= 0 ->
  NewFromHead head <> Panic /\
  NewFromHead head
  = NewFromHead {| LastTag := LastTag head; Hash := hash;
                   CommitsSinceTag := CommitsSinceTag head |}.
Proof.
  intros H. split.
  - destruct H as [H|H].
    + apply (NewFromHead_returns head (before "+" (after "+" (tag_body head)))).
      now rewrite H.
    + apply (NewFromHead_returns head
               (if Contains (tag_body head) "+"
                then before "+" (after "+" (tag_body head)) else "")).
      destruct (Contains (tag_body head) "+"); [reflexivity|].
      destruct (Z.ltb_spec 0 (CommitsSinceTag head)); [lia | reflexivity].
  - rewrite !NewFromHead_steps. unfold tag_body. cbn [LastTag Hash CommitsSinceTag].
    cbv zeta.
    destruct (Contains (TrimPrefix (LastTag head) DefaultPrefix) "+") eqn:CP;
      [reflexivity|].
    destruct H as [H|H]; [unfold tag_body in H; congruence|].
    destruct (Z.ltb_spec 0 (CommitsSinceTag head)); [lia | reflexivity].
Qed.

Lemma NewFromHead_hash_unused_witness :
  NewFromHead {| LastTag := "v1.2.3+build7"; Hash := ""; CommitsSinceTag := 4 |}
  <> Panic /\
  NewFromHead {| LastTag := "v1.2.3+build7"; Hash := ""; CommitsSinceTag := 4 |}
  = NewFromHead {| LastTag := "v1.2.3+build7"; Hash := "abcdef1234567890";
                   CommitsSinceTag := 4 |}.
Proof.
  exact (NewFromHead_hash_unused
           {| LastTag := "v1.2.3+build7"; Hash := ""; CommitsSinceTag := 4 |}
           "abcdef1234567890" (or_introl eq_refl)).
Defined.

(** X7. In a version NewFromHead builds, Commits is the number of commits
    since the tag, the prefix is ["v"] when the tag starts with it and
    empty otherwise, and Major, Minor and Patch are between 0 and the
    largest int: a sign cannot reach [Atoi], the ['-'] and ['+'] of the tag
    being taken as separators before. *)
Theorem NewFromHead_built_fields (head : RepoHead) (v : Version) :
  NewFromHead head = Built v ->
  Commits v = CommitsSinceTag head /\
  Prefix v = (if HasPrefix (LastTag head) DefaultPrefix then DefaultPrefix else "") /\
  0 <= Major v <= MaxInt64 /\ 0 <= Minor v <= MaxInt64 /\
  0 <= Patch v <= MaxInt64.
Proof.
  rewrite NewFromHead_steps. cbv zeta.
  destruct (if Contains (tag_body head) "+" then _ else _) as [meta|];
    [|discriminate].
  assert (M : 0 <= 0 <= MaxInt64) by (cbv; split; discriminate).
  destruct (before "-" (before "+" (tag_body head)) =? "")%string.
  { intros [= <-]. cbn. repeat split; apply M. }
  pose proof (Split_pieces_free "." "-" _ (before_free "-" (before "+" (tag_body head))))
    as F.
  destruct (Split _ ".") as [|a [|b [|c [|d rest]]]]; try discriminate.
  destruct (Atoi a) as [|x] eqn:Ea; [discriminate|].
  destruct (Atoi b) as [|y] eqn:Eb; [discriminate|].
  destruct (Atoi c) as [|z] eqn:Ec; [discriminate|].
  intros [= <-]. cbn.
  destruct (Atoi_range a x Ea) as [[_ Ua] Pa].
  destruct (Atoi_range b y Eb) as [[_ Ub] Pb].
  destruct (Atoi_range c z Ec) as [[_ Uc] Pc].
  specialize (Pa (F a ltac:(cbn; tauto))).
  specialize (Pb (F b ltac:(cbn; tauto))).
  specialize (Pc (F c ltac:(cbn; tauto))).
  repeat split; assumption.
Qed.

Lemma NewFromHead_built_fields_witness :
  Commits (set_Patch 3 (set_Minor 2 (set_Major 1 (set_Prefix "v" (zero_version 0)))))
  = 0 /\
  Prefix (set_Patch 3 (set_Minor 2 (set_Major 1 (set_Prefix "v" (zero_version 0)))))
  = "v" /\
  0 <= 1 <= MaxInt64 /\ 0 <= 2 <= MaxInt64 /\ 0 <= 3 <= MaxInt64.
Proof.
  exact (NewFromHead_built_fields
           {| LastTag := "v1.2.3"; Hash := ""; CommitsSinceTag := 0 |}
           (set_Patch 3 (set_Minor 2 (set_Major 1 (set_Prefix "v" (zero_version 0)))))
           eq_refl).
Defined.

(** The pieces of a tag in the printed form *)
Lemma tag_of_pieces (a b c pre meta : string) :
  int_digits a -> int_digits b -> int_digits c ->
  Contains pre "-" = false -> Contains pre "+" = false ->
  Contains meta "+" = false ->
  let body := tag_of "" a b c pre meta in
  let working := (a ++ "." ++ b ++ "." ++ c ++ with_sep "-" pre)%string in
  Contains body "+" = negb (meta =? "")%string /\
  (meta <> "" -> before "+" (after "+" body) = meta) /\
  before "+" body = working /\
  Contains working "-" = negb (pre =? "")%string /\
  (pre <> "" -> before "-" (after "-" working) = pre) /\
  before "-" working = (a ++ "." ++ b ++ "." ++ c)%string /\
  Split (a ++ "." ++ b ++ "." ++ c) "." = [a; b; c].
Proof.
  intros (Na & Aa & _) (Nb & Ab & _) (Nc & Ac & _) P1 P2 M. cbv zeta.
  unfold tag_of. cbn [append].
  assert (D : forall s x, all_in is_digit s = true -> is_digit x = false ->
                          Contains s x = false)
    by (intros; now apply (all_in_no_sep is_digit)).
  assert (C3 : forall x, is_digit x = false -> Ascii.eqb "." x = false ->
                 Contains (a ++ String "." (b ++ String "." c)) x = false).
  { intros x Hx Hd. rewrite Contains_append. cbn [Contains].
    rewrite Contains_append. cbn [Contains].
    rewrite Hd, !D by assumption. reflexivity. }
  assert (W : (a ++ String "." (b ++ String "." (c ++ with_sep "-" pre)))%string
              = ((a ++ String "." (b ++ String "." c)) ++ with_sep "-" pre)%string).
  { rewrite !append_assoc. cbn [append]. rewrite !append_assoc. reflexivity. }
  assert (X : (a ++ String "." (b ++ String "." (c ++ with_sep "-" pre ++ with_sep "+" meta)))%string
              = ((a ++ String "." (b ++ String "." (c ++ with_sep "-" pre)))
                   ++ with_sep "+" meta)%string).
  { rewrite !append_assoc. cbn [append]. rewrite !append_assoc.
    cbn [append]. rewrite !append_assoc. reflexivity. }
  assert (WP : Contains (a ++ String "." (b ++ String "." (c ++ with_sep "-" pre))) "+"
               = false).
  { rewrite W, Contains_append, C3, Contains_with_sep, P2 by reflexivity.
    cbn. now rewrite Bool.andb_false_r. }
  rewrite X. repeat split.
  - rewrite Contains_append, WP, Contains_with_sep. cbn.
    now rewrite Bool.andb_true_r.
  - intros Nm. destruct meta as [|m0 meta']; [congruence|]. cbn [with_sep].
    rewrite after_append by exact WP. now apply before_no_sep.
  - destruct meta as [|m0 meta']; cbn [with_sep].
    + rewrite append_nil_r. now apply before_no_sep.
    + now apply before_append.
  - rewrite W, Contains_append, C3, Contains_with_sep by reflexivity. cbn.
    now rewrite Bool.andb_true_r.
  - intros Np. destruct pre as [|p0 pre']; [congruence|]. rewrite W.
    cbn [with_sep]. rewrite after_append by (now apply C3).
    now apply before_no_sep.
  - rewrite W. destruct pre as [|p0 pre']; cbn [with_sep].
    + rewrite append_nil_r. apply before_no_sep. now apply C3.
    + apply before_append. now apply C3.
  - rewrite Split_append by (now apply D).
    rewrite Split_append by (now apply D).
    rewrite Split_no_sep by (now apply D). reflexivity.
Qed.

(** What [NewFromHead] builds from a tag in the printed form *)
Lemma NewFromHead_reads_tag (p a b c pre meta hash : string) (n : Z) :
  p = "" \/ p = DefaultPrefix ->
  int_digits a -> int_digits b -> int_digits c ->
  Contains pre "-" = false -> Contains pre "+" = false ->
  Contains meta "+" = false ->
  meta <> "" \/ n <= 0 \/ (8 <= String.length hash)%nat ->
  NewFromHead {| LastTag := tag_of p a b c pre meta; Hash := hash;
                 CommitsSinceTag := n |}
  = Built {| Prefix := p; Major := decimal a; Minor := decimal b;
             Patch := decimal c; preRelease := pre; Commits := n;
             Meta := if (meta =? "")%string
                     then (if 0 <? n then take 8 hash else "") else meta;
             releaseCandidate := 0 |}.
Proof.
  intros Hp Da Db Dc P1 P2 M HB.
  destruct (tag_of_pieces a b c pre meta Da Db Dc P1 P2 M)
    as (E1 & E2 & E3 & E4 & E5 & E6 & E7).
  cbv zeta in *.
  assert (HP : HasPrefix (tag_of p a b c pre meta) DefaultPrefix
               = (p =? DefaultPrefix)%string
               /\ TrimPrefix (tag_of p a b c pre meta) DefaultPrefix
                  = tag_of "" a b c pre meta).
  { destruct Da as (Na & Aa & _). destruct a as [|d a']; [congruence|].
    cbn in Aa. apply Bool.andb_true_iff in Aa as [Hd _].
    unfold TrimPrefix, HasPrefix, tag_of, DefaultPrefix.
    destruct Hp as [->| ->]; cbn [append String.prefix String.eqb Ascii.eqb].
    - destruct (ascii_dec "v" d) as [<-|_]; [discriminate Hd|]. now split.
    - destruct (ascii_dec "v" "v") as [_|N]; [|now elim N].
      cbn [Bool.eqb]. split; reflexivity. }
  destruct HP as [HP1 HP2].
  rewrite NewFromHead_steps. unfold tag_body. cbn [LastTag Hash CommitsSinceTag].
  cbv zeta. rewrite HP1, HP2, E1, E3, E4, E6.
  assert (CoreNE : (a ++ "." ++ b ++ "." ++ c =? "")%string = false).
  { destruct Da as (Na & _). destruct a; [congruence | reflexivity]. }
  rewrite CoreNE, E7.
  rewrite (Atoi_int_digits a Da), (Atoi_int_digits b Db), (Atoi_int_digits c Dc).
  assert (PreE : (if negb (pre =? "")%string
                  then before "-" (after "-" (a ++ "." ++ b ++ "." ++ c ++ with_sep "-" pre))
                  else "") = pre).
  { destruct (String.eqb_spec pre "") as [->|N]; [reflexivity | now apply E5]. }
  rewrite PreE.
  assert (PfxE : (if (p =? DefaultPrefix)%string then DefaultPrefix else "") = p).
  { destruct Hp as [->| ->]; reflexivity. }
  rewrite PfxE.
  destruct (String.eqb_spec meta "") as [->|Nm]; cbn [negb].
  - destruct HB as [HB|[HB|HB]]; [congruence | |].
    + destruct (Z.ltb_spec 0 n); [lia | reflexivity].
    + unfold slice_to. apply Nat.leb_le in HB. rewrite HB.
      destruct (0 <? n); reflexivity.
  - rewrite (E2 Nm). reflexivity.
Qed.

(** X8. NewFromHead reads a well-formed tag as it is written. For a tag
    made of the prefix ["v"] or no prefix, three numbers in digits joined
    by dots (each at most the largest int; leading zeros are allowed), a
    pre-release without ['-'] and ['+'] behind a ['-'] and metadata without
    ['+'] behind a ['+'] (each part may be missing), the version built has
    that prefix, the three numbers, that pre-release and that metadata;
    without metadata in the tag the metadata is the first 8 bytes of the
    hash when there are commits since the tag and empty when there are
    none. *)
Theorem NewFromHead_well_formed (p a b c pre meta hash : string) (n : Z) :
  p = "" \/ p = DefaultPrefix ->
  int_digits a -> int_digits b -> int_digits c ->
  Contains pre "-" = false -> Contains pre "+" = false ->
  Contains meta "+" = false ->
  meta <> "" \/ n <= 0 \/ (8 <= String.length hash)%nat ->
  NewFromHead {| LastTag := tag_of p a b c pre meta; Hash := hash;
                 CommitsSinceTag := n |}
  = Built {| Prefix := p; Major := decimal a; Minor := decimal b;
             Patch := decimal c; preRelease := pre; Commits := n;
             Meta := if (meta =? "")%string
                     then (if 0 <? n then take 8 hash else "") else meta;
             releaseCandidate := 0 |}.
Proof. apply NewFromHead_reads_tag. Qed.

Lemma NewFromHead_well_formed_witness :
  NewFromHead {| LastTag := "v01.2.3-rc.1+build-7"; Hash := "";
                 CommitsSinceTag := 2 |}
  = Built {| Prefix := "v"; Major := 1; Minor := 2; Patch := 3;
             preRelease := "rc.1"; Commits := 2; Meta := "build-7";
             releaseCandidate := 0 |}.
Proof.
  apply (NewFromHead_well_formed "v" "01" "2" "3" "rc.1" "build-7" "" 2).
  - now right.
  - repeat split; [discriminate | cbv; discriminate].
  - repeat split; [discriminate | cbv; discriminate].
  - repeat split; [discriminate | cbv; discriminate].
  - reflexivity.
  - reflexivity.
  - reflexivity.
  - left. discriminate.
Defined.

(** The full format of a version without commits since the tag is the tag
    in the printed form. *)
Lemma Format_full_tagged (v : Version) :
  Commits v = 0 ->
  Format v FullFormat
  = Ok (tag_of (Prefix v) (FormatInt (Major v)) (FormatInt (Minor v))
               (FormatInt (Patch v)) (preRelease v) (Meta v)).
Proof.
  intros C. rewrite Format_render.
  change (first_match FullFormat)
    with (Some {| tok_y := true; tok_z := true; tok_p := true;
                  tok_r := false; tok_m := true |}).
  unfold render, render_front, patch_shown, PreRelease, tag_of.
  cbn [tok_y tok_z tok_p tok_r tok_m]. rewrite C. cbn [Z.ltb Z.compare andb Z.eqb].
  repeat (progress (rewrite ?append_assoc; cbn [append])). reflexivity.
Qed.

(** X9. Printing and reading back. For a version without commits since the
    tag whose prefix is ["v"] or empty, whose numbers are between 0 and the
    largest int, whose pre-release has no ['-'] and no ['+'] and whose
    metadata has no ['+'], NewFromHead builds the same version from the tag
    that String prints, whatever the hash. *)
Theorem String_NewFromHead_roundtrip (v : Version) (hash : string) :
  Prefix v = "" \/ Prefix v = DefaultPrefix ->
  0 <= Major v <= MaxInt64 -> 0 <= Minor v <= MaxInt64 ->
  0 <= Patch v <= MaxInt64 ->
  Contains (preRelease v) "-" = false -> Contains (preRelease v) "+" = false ->
  Contains (Meta v) "+" = false ->
  Commits v = 0 -> releaseCandidate v = 0 ->
  NewFromHead {| LastTag := Version_String v; Hash := hash;
                 CommitsSinceTag := 0 |} = Built v.
Proof.
  intros Hp HM Hm HP P1 P2 M C R.
  unfold Version_String. rewrite (Format_full_tagged v C).
  rewrite (NewFromHead_reads_tag (Prefix v) (FormatInt (Major v))
             (FormatInt (Minor v)) (FormatInt (Patch v)) (preRelease v)
             (Meta v) hash 0 Hp
             (FormatInt_int_digits _ HM) (FormatInt_int_digits _ Hm)
             (FormatInt_int_digits _ HP) P1 P2 M)
    by (right; left; lia).
  destruct (FormatInt_digits (Major v) ltac:(lia)) as [_ ->].
  destruct (FormatInt_digits (Minor v) ltac:(lia)) as [_ ->].
  destruct (FormatInt_digits (Patch v) ltac:(lia)) as [_ ->].
  destruct v as [pfx ma mi pa pre co me rc]. cbn in *. subst co rc.
  destruct (String.eqb_spec me "") as [->|_]; reflexivity.
Qed.

Lemma String_NewFromHead_roundtrip_witness :
  NewFromHead
    {| LastTag := Version_String
                    {| Prefix := "v"; Major := 2; Minor := 0; Patch := 11;
                       preRelease := "rc.1"; Commits := 0; Meta := "build-7";
                       releaseCandidate := 0 |};
       Hash := "abc"; CommitsSinceTag := 0 |}
  = Built {| Prefix := "v"; Major := 2; Minor := 0; Patch := 11;
             preRelease := "rc.1"; Commits := 0; Meta := "build-7";
             releaseCandidate := 0 |}.
Proof.
  apply (String_NewFromHead_roundtrip
           {| Prefix := "v"; Major := 2; Minor := 0; Patch := 11;
              preRelease := "rc.1"; Commits := 0; Meta := "build-7";
              releaseCandidate := 0 |} "abc").
  - now right.
  - cbv. split; discriminate.
  - cbv. split; discriminate.
  - cbv. split; discriminate.
  - reflexivity.
  - reflexivity.
  - reflexivity.
  - reflexivity.
  - reflexivity.
Defined.

End VersionModelExtras.

(** * The command *)

Section CommandFacts.

(** Every error of [NewFromHead] is an error of a malformed tag. *)
Lemma NewFromHead_failed (head : RepoHead) (e : error) :
  NewFromHead head = Failed e -> invalid_tag_format e = true.
Proof.
  rewrite NewFromHead_steps. cbv zeta.
  destruct (if Contains (tag_body head) "+" then _ else _); [|discriminate].
  destruct (before "-" (before "+" (tag_body head)) =? "")%string;
    [discriminate|].
  destruct (Split _ ".") as [|a [|b [|c [|d rest]]]];
    try (intros [= <-]; reflexivity).
  destruct (Atoi a); [intros [= <-]; reflexivity|].
  destruct (Atoi b); [intros [= <-]; reflexivity|].
  destruct (Atoi c); [intros [= <-]; reflexivity | discriminate].
Qed.

(** A successful [Format] starts with the prefix and the major number. *)
Lemma Format_starts (v : Version) (format s : string) :
  Format v format = Ok s ->
  exists rest, s = Prefix v ++ FormatInt (Major v) ++ rest.
Proof.
  rewrite Format_render. destruct (first_match format) as [t|]; [|discriminate].
  unfold render, render_front.
  destruct (tok_r t); [destruct (ReleaseCandidate v); [|discriminate]|];
    intros [= <-]; eexists; rewrite !append_assoc; reflexivity.
Qed.

(** X10. Without the flag -format, selectFormat returns one of the six
    predefined patterns, so a pattern of the grammar, and it returns the
    release-candidate pattern only when -release-candidate is set and none
    of -no-minor, -no-patch, -no-pre, -no-hash and -no-meta is: each of
    them overrides -release-candidate. *)
Theorem selectFormat_predefined (f : flags) :
  flag_format f = "" ->
  In (selectFormat f)
     [FullFormat; NoMetaFormat; NoPreFormat; NoPatchFormat; NoMinorFormat;
      ReleaseCandidateFormat] /\
  grammar_pattern (selectFormat f) = true /\
  (selectFormat f = ReleaseCandidateFormat <->
   flag_releaseCandidate f = true /\ excludeMinor f = false /\
   excludePatch f = false /\ excludePreRelease f = false /\
   excludeHash f = false /\ excludeMeta f = false).
Proof.
  intros F. unfold selectFormat. rewrite F. cbn [String.eqb negb].
  destruct (excludeMinor f), (excludePatch f), (excludePreRelease f),
    (excludeHash f), (excludeMeta f), (flag_releaseCandidate f);
    cbn [orb]; (split; [cbn; tauto|]); (split; [reflexivity|]);
    split; try discriminate; try (intros (? & ? & ? & ? & ? & ?); discriminate);
    intros _; repeat split.
Qed.

Lemma selectFormat_predefined_witness :
  In (selectFormat
        {| flag_prefix := ""; flag_format := ""; excludeHash := true;
           excludeMeta := false; setMeta := ""; excludePreRelease := false;
           excludePatch := false; excludeMinor := false;
           flag_releaseCandidate := true |})
     [FullFormat; NoMetaFormat; NoPreFormat; NoPatchFormat; NoMinorFormat;
      ReleaseCandidateFormat].
Proof.
  apply (proj1 (selectFormat_predefined
    {| flag_prefix := ""; flag_format := ""; excludeHash := true;
       excludeMeta := false; setMeta := ""; excludePreRelease := false;
       excludePatch := false; excludeMinor := false;
       flag_releaseCandidate := true |} eq_refl)).
Defined.

End CommandFacts.

Section CommandProperties.

Variable E : Type.
Variable GitDescribe : string -> E + RepoHead.
Variable Getwd : E + string.

(** What [main] does once the version is built *)
Lemma main_built (f : flags) (arg0 line : string) :
  main GitDescribe Getwd f arg0 = Stdout line ->
  exists path head v s,
    (if (arg0 =? "")%string then Getwd else inr arg0) = inr path /\
    GitDescribe path = inr head /\ NewFromHead head = Built v /\
    Format (set_Prefix (if (flag_prefix f =? "")%string then Prefix v
                        else flag_prefix f)
              (set_Meta (if (setMeta f =? "")%string then Meta v else setMeta f)
                 v))
           (selectFormat f) = Ok s /\
    line = Println s.
Proof.
  unfold main, NewFromRepo.
  destruct (if (arg0 =? "")%string then Getwd else inr arg0) as [e|path];
    [discriminate|].
  destruct (GitDescribe path) as [e|head] eqn:G; [discriminate|].
  destruct (NewFromHead head) as [v|e|] eqn:N; try discriminate.
  cbv zeta.
  assert (V : (if negb (flag_prefix f =? "")%string
               then set_Prefix (flag_prefix f)
                      (if negb (setMeta f =? "")%string
                       then set_Meta (setMeta f) v else v)
               else if negb (setMeta f =? "")%string
                    then set_Meta (setMeta f) v else v)
              = set_Prefix (if (flag_prefix f =? "")%string then Prefix v
                            else flag_prefix f)
                  (set_Meta (if (setMeta f =? "")%string then Meta v
                             else setMeta f) v)).
  { destruct v. destruct (flag_prefix f =? "")%string,
      (setMeta f =? "")%string; reflexivity. }
  rewrite V.
  destruct (Format _ (selectFormat f)) as [s|e] eqn:F; [|discriminate].
  intros [= <-]. exists path, head, v, s. repeat split; assumption || reflexivity.
Qed.

(** X11. Without the flag -format, main never reports an invalid format.
    The errors of the package it can report are those of a malformed tag
    and, when -release-candidate selects the pattern, those of
    ReleaseCandidate. *)
Theorem main_errors (f : flags) (arg0 : string) (e : error) :
  flag_format f = "" ->
  main GitDescribe Getwd f arg0 = Stderr (inr e) ->
  invalid_tag_format e = true \/
  (selectFormat f = ReleaseCandidateFormat /\
   (e = BadReleaseCandidate \/ exists n, e = NumErr n)).
Proof.
  intros F. unfold main, NewFromRepo.
  destruct (if (arg0 =? "")%string then Getwd else inr arg0) as [e0|path];
    [discriminate|].
  destruct (GitDescribe path) as [e0|head]; [discriminate|].
  destruct (NewFromHead head) as [v|e0|] eqn:N; try discriminate.
  2:{ intros [= <-]. left. exact (NewFromHead_failed head e0 N). }
  cbv zeta.
  set (v' := if negb (flag_prefix f =? "")%string then _ else _).
  rewrite Format_render.
  unfold selectFormat. rewrite F. cbn [String.eqb negb].
  destruct (excludeMinor f), (excludePatch f), (excludePreRelease f),
    (excludeHash f || excludeMeta f)%bool, (flag_releaseCandidate f);
    try discriminate.
  change (first_match ReleaseCandidateFormat)
    with (Some {| tok_y := true; tok_z := true; tok_p := false;
                  tok_r := true; tok_m := false |}).
  unfold render. cbn [tok_r].
  destruct (ReleaseCandidate v') as [rc|e1] eqn:R; [discriminate|].
  intros [= <-]. right. split; [reflexivity|].
  exact (ReleaseCandidate_error v' e1 R).
Qed.

(** X12. When main prints a line, the repository it read is the one at
    its argument, or at the working directory when there is no argument,
    NewFromHead built a version from the head GitDescribe returned for that
    path, and the line starts with the value of -prefix when it is not
    empty, in place of the prefix of that version, and with the prefix of
    that version otherwise (an empty -prefix does not remove the ["v"] of a
    tag); the major number of that version follows. *)
Theorem main_prefix (f : flags) (arg0 line : string) :
  main GitDescribe Getwd f arg0 = Stdout line ->
  exists path head v rest,
    (if (arg0 =? "")%string then Getwd else inr arg0) = inr path /\
    GitDescribe path = inr head /\ NewFromHead head = Built v /\
    line = (if (flag_prefix f =? "")%string then Prefix v else flag_prefix f)
             ++ FormatInt (Major v) ++ rest.
Proof.
  intros M.
  destruct (main_built f arg0 line M)
    as (path & head & v & s & W & G & N & F & ->).
  destruct (Format_starts _ _ _ F) as [rest ->]. cbn [Prefix Major set_Prefix set_Meta].
  exists path, head, v, (Println rest). repeat split; try assumption.
  unfold Println. rewrite !append_assoc. reflexivity.
Qed.

(** X13. When the pattern in use has the token m and -set-meta is not
    empty, the line main prints ends with ['+'] and the value of -set-meta:
    it stands in place of the metadata of the tag and of the hash. *)
Theorem main_set_meta (f : flags) (arg0 line : string) (t : tokens) :
  setMeta f <> "" ->
  first_match (selectFormat f) = Some t -> tok_m t = true ->
  main GitDescribe Getwd f arg0 = Stdout line ->
  exists front, line = front ++ "+" ++ setMeta f ++ String "010" "".
Proof.
  intros NM FM TM M.
  destruct (main_built f arg0 line M) as (path & head & v & s & _ & _ & _ & F & ->).
  rewrite Format_render, FM in F. unfold render in F. rewrite TM in F.
  cbn [Meta set_Prefix set_Meta] in F.
  destruct (String.eqb_spec (setMeta f) ""); [congruence|].
  rewrite (with_sep_nonempty _ _ NM) in F. unfold Println.
  destruct (tok_r t).
  - destruct (ReleaseCandidate _) as [rc|]; [|discriminate].
    injection F as <-.
    match goal with
    | |- exists _, ((?A ++ ?B ++ _) ++ _)%string = _ => exists (A ++ B)%string
    end.
    rewrite !append_assoc. reflexivity.
  - injection F as <-.
    match goal with
    | |- exists _, ((?A ++ _) ++ _)%string = _ => exists A
    end.
    rewrite !append_assoc. reflexivity.
Qed.

End CommandProperties.

Lemma main_errors_witness :
  invalid_tag_format (TagComponents "1.2") = true \/
  (selectFormat no_flags = ReleaseCandidateFormat /\
   (TagComponents "1.2" = BadReleaseCandidate
    \/ exists n, TagComponents "1.2" = NumErr n)).
Proof.
  exact (main_errors unit
           (fun _ => inr {| LastTag := "v1.2"; Hash := ""; CommitsSinceTag := 0 |})
           (inr "/repo") no_flags "" (TagComponents "1.2") eq_refl eq_refl).
Defined.

Lemma main_set_meta_witness :
  exists front, "v1.2.3+build9" ++ String "010" ""
                = front ++ "+" ++ "build9" ++ String "010" "".
Proof.
  exact (main_set_meta unit
           (fun _ => inr {| LastTag := "v1.2.3"; Hash := ""; CommitsSinceTag := 0 |})
           (inr "/repo")
           {| flag_prefix := ""; flag_format := ""; excludeHash := false;
              excludeMeta := false; setMeta := "build9";
              excludePreRelease := false; excludePatch := false;
              excludeMinor := false; flag_releaseCandidate := false |}
           "" ("v1.2.3+build9" ++ String "010" "")
           {| tok_y := true; tok_z := true; tok_p := true; tok_r := false;
              tok_m := true |}
           ltac:(discriminate) eq_refl eq_refl eq_refl).
Defined.

Lemma main_prefix_witness :
  exists path head v rest,
    (if ("" =? "")%string then @inr unit string "/repo" else inr "") = inr path /\
    (fun _ : string =>
       @inr unit RepoHead
            {| LastTag := "v1.2.3"; Hash := ""; CommitsSinceTag := 0 |}) path
    = inr head /\
    NewFromHead head = Built v /\
    "ver1.2.3" ++ String "010" "" = "ver" ++ FormatInt (Major v) ++ rest.
Proof.
  exact (main_prefix unit
           (fun _ => inr {| LastTag := "v1.2.3"; Hash := ""; CommitsSinceTag := 0 |})
           (inr "/repo")
           {| flag_prefix := "ver"; flag_format := ""; excludeHash := false;
              excludeMeta := false; setMeta := "";
              excludePreRelease := false; excludePatch := false;
              excludeMinor := false; flag_releaseCandidate := false |}
           "" ("ver1.2.3" ++ String "010" "") eq_refl).
Defined.

(** * From the tag to the printed version *)

Section TagToString.

(** The full format, written out *)
Lemma Format_full (v : Version) :
  Format v FullFormat
  = Ok (Prefix v ++ FormatInt (Major v) ++ "." ++ FormatInt (Minor v) ++ "."
          ++ FormatInt (patch_shown v)
          ++ with_sep "-" (PreRelease v) ++ with_sep "+" (Meta v)).
Proof.
  rewrite Format_render.
  change (first_match FullFormat)
    with (Some {| tok_y := true; tok_z := true; tok_p := true;
                  tok_r := false; tok_m := true |}).
  unfold render, render_front. cbn [tok_y tok_z tok_p tok_r tok_m].
  repeat (progress (rewrite ?append_assoc; cbn [append])). reflexivity.
Qed.

(** X14. The version of a commit that is not tagged. For a well-formed tag
    without metadata, n > 0 commits since the tag and a hash of 8 bytes or
    more, NewFromHead succeeds and String prints the prefix, the numbers of
    the tag, ["dev.<n>"] as the pre-release and the first 8 bytes of the
    hash as metadata. When the tag has no pre-release the patch number is
    the one of the tag plus one ([patch++], on an int); when it has one,
    the patch number is unchanged and ["dev.<n>"] is appended to that
    pre-release behind a dot. *)
Theorem String_untagged (p a b c pre hash : string) (n : Z) :
  p = "" \/ p = DefaultPrefix ->
  int_digits a -> int_digits b -> int_digits c ->
  Contains pre "-" = false -> Contains pre "+" = false ->
  0 < n -> (8 <= String.length hash)%nat ->
  exists v,
    NewFromHead {| LastTag := tag_of p a b c pre ""; Hash := hash;
                   CommitsSinceTag := n |} = Built v /\
    Version_String v
    = p ++ FormatInt (decimal a) ++ "." ++ FormatInt (decimal b) ++ "."
        ++ FormatInt (if (pre =? "")%string then wrap64 (decimal c + 1)
                      else decimal c)
        ++ "-" ++ (if (pre =? "")%string then "" else pre ++ ".")
        ++ "dev." ++ FormatInt n ++ "+" ++ take 8 hash.
Proof.
  intros Hp Da Db Dc P1 P2 Hn HB.
  eexists. split.
  - apply NewFromHead_reads_tag; try assumption; [reflexivity | now right; right].
  - unfold Version_String. rewrite Format_full.
    unfold patch_shown, PreRelease.
    cbn [Prefix Major Minor Patch preRelease Commits Meta String.eqb].
    destruct (Z.eqb_spec n 0) as [|_]; [lia|].
    pose proof Hn as Hn'. apply Z.ltb_lt in Hn'. rewrite Hn'. cbn [andb].
    assert (T : take 8 hash <> "").
    { intros Z. pose proof (take_length 8 hash HB) as L. rewrite Z in L.
      discriminate L. }
    rewrite (with_sep_nonempty _ _ T).
    destruct (String.eqb_spec pre "") as [->|Np].
    + cbn [with_sep append]. reflexivity.
    + rewrite with_sep_nonempty by (destruct pre; [congruence | discriminate]).
      repeat (progress (rewrite ?append_assoc; cbn [append])). reflexivity.
Qed.

Lemma String_untagged_witness :
  exists v,
    NewFromHead {| LastTag := tag_of "v" "1" "2" "3" "" "";
                   Hash := "fcf2c8f0a1b2"; CommitsSinceTag := 3 |} = Built v /\
    Version_String v
    = "v" ++ FormatInt (decimal "1") ++ "." ++ FormatInt (decimal "2") ++ "."
        ++ FormatInt (wrap64 (decimal "3" + 1))
        ++ "-" ++ "" ++ "dev." ++ FormatInt 3 ++ "+" ++ take 8 "fcf2c8f0a1b2".
Proof.
  apply (String_untagged "v" "1" "2" "3" "" "fcf2c8f0a1b2" 3).
  - now right.
  - repeat split; [discriminate | cbv; discriminate].
  - repeat split; [discriminate | cbv; discriminate].
  - repeat split; [discriminate | cbv; discriminate].
  - reflexivity.
  - reflexivity.
  - reflexivity.
  - cbn. lia.
Defined.

(** X15. Reading and printing back. For a well-formed tag and no commits
    since the tag, NewFromHead succeeds and String prints the tag again,
    each of the three numbers without its leading zeros. *)
Theorem NewFromHead_String_roundtrip (p a b c pre meta hash : string) :
  p = "" \/ p = DefaultPrefix ->
  int_digits a -> int_digits b -> int_digits c ->
  Contains pre "-" = false -> Contains pre "+" = false ->
  Contains meta "+" = false ->
  exists v,
    NewFromHead {| LastTag := tag_of p a b c pre meta; Hash := hash;
                   CommitsSinceTag := 0 |} = Built v /\
    Version_String v
    = tag_of p (FormatInt (decimal a)) (FormatInt (decimal b))
             (FormatInt (decimal c)) pre meta.
Proof.
  intros Hp Da Db Dc P1 P2 M.
  eexists. split.
  - apply NewFromHead_reads_tag; try assumption. right; left. lia.
  - unfold Version_String. rewrite Format_full_tagged by reflexivity.
    cbn [Prefix Major Minor Patch preRelease Meta].
    destruct (String.eqb_spec meta "") as [->|_]; reflexivity.
Qed.

Lemma NewFromHead_String_roundtrip_witness :
  exists v,
    NewFromHead {| LastTag := tag_of "" "01" "002" "3" "beta.2" "build7";
                   Hash := ""; CommitsSinceTag := 0 |} = Built v /\
    Version_String v
    = tag_of "" (FormatInt (decimal "01")) (FormatInt (decimal "002"))
             (FormatInt (decimal "3")) "beta.2" "build7".
Proof.
  apply (NewFromHead_String_roundtrip "" "01" "002" "3" "beta.2" "build7" "").
  - now left.
  - repeat split; [discriminate | cbv; discriminate].
  - repeat split; [discriminate | cbv; discriminate].
  - repeat split; [discriminate | cbv; discriminate].
  - reflexivity.
  - reflexivity.
  - reflexivity.
Defined.

End TagToString.
